(** * NewsScraper: the fetch-clean-summarize pipeline

    A shallow embedding of [sentiment_analysis_pipeline.py] and the
    properties its specification states about it.

    Python strings are sequences of Unicode code points, here [list N].
    The operations whose behaviour is fixed by a handful of characters
    (whitespace, the regular expressions of the source, slicing, [strip],
    [split]) are defined outright.  The operations driven by the Unicode
    character database are exact on Basic Latin text and consult a table,
    a field of [UnicodeDB], everywhere else; [ftfy.fix_text] is such a
    table on all text.  The network,
    the page parser, the classifier, the summarization model and the clock
    are oracles of an environment [Env]; every call to one of them is
    recorded in the trace of the [World]. *)

From stdpp Require Import gmap strings list pretty.
From Stdlib Require Import NArith ZArith Lia ZifyBool.
From Stdlib Require String Ascii.

Local Open Scope N_scope.

(** ** Code points and strings *)

Abbreviation cp := N.
Abbreviation pystr := (list N).

(** A Basic Latin literal, one code point per character. *)
Definition py (s : string) : pystr := map Ascii.N_of_ascii (String.list_ascii_of_string s).
Arguments py : simpl never.

Definition in_range (lo hi c : cp) : bool := (lo <=? c) && (c <=? hi).

Definition is_ascii (c : cp) : bool := c <? 128.

(** [str.isprintable] restricted to Basic Latin: U+0020 .. U+007E. *)
Definition is_printable_ascii (c : cp) : bool := in_range 32 126 c.

(** Whitespace as [str.isspace], [str.strip], [str.split] and the pattern
    [\s] see it: CPython's [_PyUnicode_IsWhitespace]. *)
Definition is_space (c : cp) : bool :=
  in_range 0x09 0x0D c || in_range 0x1C 0x20 c || (c =? 0x85) || (c =? 0xA0)
  || (c =? 0x1680) || in_range 0x2000 0x200A c || (c =? 0x2028)
  || (c =? 0x2029) || (c =? 0x202F) || (c =? 0x205F) || (c =? 0x3000).

Definition is_upper_AZ (c : cp) : bool := in_range 65 90 c.
Definition is_lower_az (c : cp) : bool := in_range 97 122 c.
Definition is_letter (c : cp) : bool := is_upper_AZ c || is_lower_az c.
Definition is_digit (c : cp) : bool := in_range 48 57 c.

(** Lone surrogates, which UTF-8 cannot encode. *)
Definition is_surrogate (c : cp) : bool := in_range 0xD800 0xDFFF c.

Definition ascii_upper (c : cp) : cp := if is_lower_az c then c - 32 else c.
Definition ascii_lower (c : cp) : cp := if is_upper_AZ c then c + 32 else c.

(** ** The Unicode tables

    What [unicodedata], [ftfy] and the methods of [str] look up for text
    outside Basic Latin. *)
Class UnicodeDB := {
  nfkc_table : pystr -> pystr;        (* unicodedata.normalize("NFKC", s) *)
  ftfy_fix_text : pystr -> pystr;     (* ftfy.fix_text(s) *)
  isalnum_table : cp -> bool;         (* str.isalnum, behind \w and \b *)
  isalpha_table : cp -> bool;         (* str.isalpha *)
  islower_table : cp -> bool;         (* str.islower *)
  lower_table : pystr -> pystr;       (* str.lower *)
  upper_table : pystr -> pystr;       (* str.upper *)
  capitalize_table : pystr -> pystr   (* str.capitalize *)
}.

Section Strings.
Context {U : UnicodeDB}.

(** NFKC leaves Basic Latin text alone. *)
Definition nfkc (s : pystr) : pystr :=
  if forallb is_ascii s then s else nfkc_table s.

Definition isalnum (c : cp) : bool :=
  if is_ascii c then is_letter c || is_digit c else isalnum_table c.

Definition isalpha (c : cp) : bool :=
  if is_ascii c then is_letter c else isalpha_table c.

Definition islower (c : cp) : bool :=
  if is_ascii c then is_lower_az c else islower_table c.

(** [\w]: alphanumeric or the underscore. *)
Definition is_word (c : cp) : bool := isalnum c || (c =? 95).

Definition str_lower (s : pystr) : pystr :=
  if forallb is_ascii s then map ascii_lower s else lower_table s.

Definition str_upper (s : pystr) : pystr :=
  if forallb is_ascii s then map ascii_upper s else upper_table s.

(** [str.capitalize]: the first character in upper (title) case and all
    the others in lower case. *)
Definition capitalize (s : pystr) : pystr :=
  if forallb is_ascii s then
    match s with
    | [] => []
    | c :: s' => ascii_upper c :: map ascii_lower s'
    end
  else capitalize_table s.

(** ** Slicing, trimming, splitting *)

Fixpoint lstrip (s : pystr) : pystr :=
  match s with
  | c :: s' => if is_space c then lstrip s' else s
  | [] => []
  end.

Fixpoint rstrip (s : pystr) : pystr :=
  match s with
  | [] => []
  | c :: s' =>
      match rstrip s' with
      | [] => if is_space c then [] else [c]
      | r => c :: r
      end
  end.

(** [s.strip()] *)
Definition strip (s : pystr) : pystr := rstrip (lstrip s).

(** [s.split()]: the maximal runs of characters that are not whitespace.
    [cur] is the run being read, in reverse. *)
Fixpoint split_from (cur : pystr) (s : pystr) : list pystr :=
  match s with
  | [] => match cur with [] => [] | _ => [rev cur] end
  | c :: s' =>
      if is_space c
      then match cur with
           | [] => split_from [] s'
           | _ => rev cur :: split_from [] s'
           end
      else split_from (c :: cur) s'
  end.

Definition split (s : pystr) : list pystr := split_from [] s.

Fixpoint starts_with (p s : pystr) : bool :=
  match p, s with
  | [], _ => true
  | a :: p', b :: s' => (a =? b) && starts_with p' s'
  | _ :: _, [] => false
  end.

(** [p in s] *)
Fixpoint contains (p s : pystr) : bool :=
  starts_with p s || match s with [] => false | _ :: s' => contains p s' end.

(** [sep.join(parts)] *)
Fixpoint join (sep : pystr) (parts : list pystr) : pystr :=
  match parts with
  | [] => []
  | [p] => p
  | p :: ps => p ++ sep ++ join sep ps
  end.

(** [s.split(sep)[0]] for a one-character separator: the text before its
    first occurrence. *)
Fixpoint before_first (sep : cp) (s : pystr) : pystr :=
  match s with
  | [] => []
  | c :: s' => if c =? sep then [] else c :: before_first sep s'
  end.

(** ** Regular expressions

    The fragment of [re] the source uses, matched as [re] does: leftmost,
    alternatives in order, [+] greedy with backtracking. *)
Inductive regex : Type :=
  | Cls (p : cp -> bool)       (* one character of a class *)
  | Plus (p : cp -> bool)      (* class+ *)
  | Bol                        (* ^ *)
  | WordB                      (* \b *)
  | Seq (r1 r2 : regex)
  | Alt (r1 r2 : regex)
  | Group (r : regex).         (* ( ... ), numbered in order *)

(** Where a match attempt stands: the character before the position, the
    text from it on, and the groups closed so far. *)
Record mstate := MState {
  m_prev : option cp;
  m_rest : pystr;
  m_groups : list pystr
}.

Definition word_at (c : option cp) : bool :=
  match c with Some c => is_word c | None => false end.

(** [\b]: between a word character and a non-word character, or the edge
    of the string. *)
Definition word_boundary (before after : option cp) : bool :=
  xorb (word_at before) (word_at after).

Fixpoint plus_loop (p : cp -> bool) (gs : list pystr)
    (k : mstate -> option mstate) (s : pystr) : option mstate :=
  match s with
  | c :: s' =>
      if p c then
        match plus_loop p gs k s' with
        | Some st => Some st
        | None => k (MState (Some c) s' gs)
        end
      else None
  | [] => None
  end.

Fixpoint run (r : regex) (st : mstate) (k : mstate -> option mstate)
    : option mstate :=
  match r with
  | Cls p =>
      match m_rest st with
      | c :: s' => if p c then k (MState (Some c) s' (m_groups st)) else None
      | [] => None
      end
  | Plus p => plus_loop p (m_groups st) k (m_rest st)
  | Bol => match m_prev st with None => k st | Some _ => None end
  | WordB =>
      if word_boundary (m_prev st) (head (m_rest st)) then k st else None
  | Seq r1 r2 => run r1 st (fun st1 => run r2 st1 k)
  | Alt r1 r2 =>
      match run r1 st k with
      | Some st' => Some st'
      | None => run r2 st k
      end
  | Group r1 =>
      run r1 st (fun st1 =>
        let n := (length (m_rest st) - length (m_rest st1))%nat in
        k (MState (m_prev st1) (m_rest st1)
                  (m_groups st1 ++ [take n (m_rest st)])))
  end.

(** A match of [r] that starts at [s], whose preceding character is
    [prev]: its groups and its length. *)
Definition match_at (r : regex) (prev : option cp) (s : pystr)
    : option (list pystr * nat) :=
  match run r (MState prev s []) Some with
  | Some st => Some (m_groups st, (length s - length (m_rest st))%nat)
  | None => None
  end.

(** [re.sub]: scan left to right; [skip] counts the characters of the last
    match still to pass over.  No pattern of the source matches the empty
    string. *)
Fixpoint sub_from (r : regex) (repl : list pystr -> pystr)
    (prev : option cp) (skip : nat) (s : pystr) : pystr :=
  match s with
  | [] => []
  | c :: s' =>
      match skip with
      | S n => sub_from r repl (Some c) n s'
      | O =>
          match match_at r prev s with
          | Some (gs, S n) => repl gs ++ sub_from r repl (Some c) n s'
          | Some (gs, O) => repl gs ++ c :: sub_from r repl (Some c) 0 s'
          | None => c :: sub_from r repl (Some c) 0 s'
          end
      end
  end.

Definition re_sub (r : regex) (repl : list pystr -> pystr) (s : pystr)
    : pystr :=
  sub_from r repl None 0 s.

(** [\1], [\2] of a replacement: the first group is index 1. *)
Definition group (gs : list pystr) (i : nat) : pystr := nth (pred i) gs [].

(** The patterns of the source. *)

Definition is_smtdl (c : cp) : bool :=
  (c =? 115) || (c =? 109) || (c =? 116) || (c =? 100) || (c =? 108).

(** [\b([A-Za-z]+)\s([smtdl])\b] and its replacement [\1'\2]. *)
Definition contraction_re : regex :=
  Seq WordB (Seq (Group (Plus is_letter))
            (Seq (Cls is_space) (Seq (Group (Cls is_smtdl)) WordB))).
Definition contraction_repl (gs : list pystr) : pystr :=
  group gs 1 ++ [39] ++ group gs 2.

(** [[^\x00-\x7F]+] *)
Definition non_ascii_re : regex := Plus (fun c => negb (is_ascii c)).

(** [\s+] *)
Definition spaces_re : regex := Plus is_space.

Definition space_repl (_ : list pystr) : pystr := [32].

(** [\s([.,!?;:])] and its replacement [\1]. *)
Definition is_punct (c : cp) : bool :=
  (c =? 46) || (c =? 44) || (c =? 33) || (c =? 63) || (c =? 59) || (c =? 58).
Definition space_punct_re : regex := Seq (Cls is_space) (Group (Cls is_punct)).
Definition space_punct_repl (gs : list pystr) : pystr := group gs 1.

(** [(^|[.!?]\s+)([a-z])] and [lambda m: m.group(1) + m.group(2).upper()]. *)
Definition is_terminal (c : cp) : bool := (c =? 46) || (c =? 33) || (c =? 63).
Definition sentence_re : regex :=
  Seq (Group (Alt Bol (Seq (Cls is_terminal) (Plus is_space))))
      (Group (Cls is_lower_az)).
Definition sentence_repl (gs : list pystr) : pystr :=
  group gs 1 ++ str_upper (group gs 2).

(** [text.encode("utf-8", "ignore").decode("utf-8")]: what cannot be
    encoded, the lone surrogates, is dropped. *)
Definition utf8_roundtrip (s : pystr) : pystr :=
  List.filter (fun c => negb (is_surrogate c)) s.

(** The body of [clean_text] on a string. *)
Definition clean_text_str (text : pystr) : pystr :=
  let text := nfkc text in
  let text := utf8_roundtrip text in
  let text := re_sub contraction_re contraction_repl text in
  let text := re_sub non_ascii_re space_repl text in
  let text := strip (re_sub spaces_re space_repl text) in
  text.

End Strings.

(** ** Values and exceptions *)

(** The Python values the functions are applied to. *)
Inductive pyval : Type :=
  | PyStr (s : pystr)
  | PyNone
  | PyBool (b : bool)
  | PyInt (z : Z).

Inductive exn : Type :=
  | TypeError | AttributeError | IndexError | KeyError | ValueError
  | HTTPError | ConnectionError | ParserError | RuntimeError.

(** A call either returns or raises. *)
Inductive result (A : Type) : Type :=
  | Ok (a : A)
  | Raise (e : exn).
Arguments Ok {A} a.
Arguments Raise {A} e.

#[global] Instance result_ret : MRet result := fun A a => Ok a.
#[global] Instance result_bind : MBind result := fun A B f m =>
  match m with Ok a => f a | Raise e => Raise e end.
#[global] Instance result_fmap : FMap result := fun A B f m =>
  match m with Ok a => Ok (f a) | Raise e => Raise e end.

(** Code that runs in a state [S] (the local variables it rebinds, the
    world it acts on) and may raise; the state survives a raise, as the
    variables of a [try] body do for its handler. *)
Definition M (S A : Type) : Type := S -> result A * S.

#[global] Instance M_ret {S} : MRet (M S) := fun A a s => (Ok a, s).
#[global] Instance M_bind {S} : MBind (M S) := fun A B f m s =>
  match m s with
  | (Ok a, s') => f a s'
  | (Raise e, s') => (Raise e, s')
  end.

Definition get {S} : M S S := fun s => (Ok s, s).
Definition put {S} (s : S) : M S unit := fun _ => (Ok (), s).
Definition lift {S A} (r : result A) : M S A := fun s => (r, s).

(** [text = f(text)]: the variable is rebound only if [f] returns. *)
Definition assign (f : pyval -> result pyval) : M pyval unit :=
  fun text =>
    match f text with
    | Ok v => (Ok (), v)
    | Raise e => (Raise e, text)
    end.

Definition on_fst {A B X} (m : M A X) : M (A * B) X :=
  fun '(a, b) => let '(r, a') := m a in (r, (a', b)).
Definition on_snd {A B X} (m : M B X) : M (A * B) X :=
  fun '(a, b) => let '(r, b') := m b in (r, (a, b')).

Definition is_ok {A} (r : result A) : bool :=
  match r with Ok _ => true | Raise _ => false end.

Section Cleaning.
Context {U : UnicodeDB}.

(** CPython converts no int of more than 4300 decimal digits to a string:
    the default of [sys.get_int_max_str_digits()]. *)
Definition INT_MAX_STR_DIGITS : Z := 4300.

Definition exceeds_str_digits (z : Z) : bool :=
  (10 ^ INT_MAX_STR_DIGITS <=? Z.abs z)%Z.
Arguments exceeds_str_digits : simpl never.

(** [str(v)]; on an int beyond the limit it raises. *)
Definition py_str (v : pyval) : result pystr :=
  match v with
  | PyStr s => Ok s
  | PyNone => Ok (py "None")
  | PyBool true => Ok (py "True")
  | PyBool false => Ok (py "False")
  | PyInt z =>
      if exceeds_str_digits z then Raise ValueError else Ok (py (pretty z))
  end.

(** The library calls of the source, on any value: each rejects what is
    not a string. *)
Definition unicodedata_normalize_NFKC (v : pyval) : result pyval :=
  match v with PyStr s => Ok (PyStr (nfkc s)) | _ => Raise TypeError end.

Definition encode_decode_utf8 (v : pyval) : result pyval :=
  match v with
  | PyStr s => Ok (PyStr (utf8_roundtrip s))
  | _ => Raise AttributeError
  end.

Definition py_re_sub (r : regex) (repl : list pystr -> pystr) (v : pyval)
    : result pyval :=
  match v with PyStr s => Ok (PyStr (re_sub r repl s)) | _ => Raise TypeError end.

Definition py_strip (v : pyval) : result pyval :=
  match v with PyStr s => Ok (PyStr (strip s)) | _ => Raise AttributeError end.

Definition py_fix_text (v : pyval) : result pyval :=
  match v with PyStr s => Ok (PyStr (ftfy_fix_text s)) | _ => Raise TypeError end.

(** ** [clean_text] *)

(** The [try] body; the state is the variable [text]. *)
Definition clean_text_try : M pyval pyval :=
  assign unicodedata_normalize_NFKC ;;
  assign encode_decode_utf8 ;;
  assign (py_re_sub contraction_re contraction_repl) ;;
  assign (py_re_sub non_ascii_re space_repl) ;;
  assign (fun text => py_re_sub spaces_re space_repl text ≫= py_strip) ;;
  get.

(** Both the body and the handler end in [return text]. *)
Definition clean_text (text : pyval) : pyval :=
  match clean_text_try text with
  | (Ok v, _) => v
  | (Raise _, text) => text
  end.

(** ** [fix_guardian_link] *)
Definition fix_guardian_link (link : pystr) : pystr :=
  if negb (starts_with (py "http") link)
  then py "https://www.theguardian.com" ++ before_first 35 link
  else link.

(** ** [filter_headlines]

    No [try] here: a headline that [clean_text] hands back unchanged
    because it is not a string makes [split] raise. *)
Definition len_split (v : pyval) : result nat :=
  match v with PyStr s => Ok (length (split s)) | _ => Raise AttributeError end.

Definition py_lower (v : pyval) : result pystr :=
  match v with PyStr s => Ok (str_lower s) | _ => Raise AttributeError end.

Fixpoint filter_headlines_loop (filtered : list pyval) (headlines : list pyval)
    : result (list pyval) :=
  match headlines with
  | [] => Ok filtered
  | headline :: rest =>
      let cleaned_headline := clean_text headline in
      n ← len_split cleaned_headline;
      if (n <=? 2)%nat then filter_headlines_loop filtered rest else
      low ← py_lower cleaned_headline;
      if contains (py "video") low || contains (py "advertisement") low
      then filter_headlines_loop filtered rest
      else filter_headlines_loop (filtered ++ [cleaned_headline]) rest
  end.

Definition filter_headlines (headlines : list pyval) : result (list pyval) :=
  filter_headlines_loop [] headlines.

(** ** [clean_summary] *)

Definition truthy (v : pyval) : bool :=
  match v with
  | PyStr s => negb (bool_decide (s = []))
  | PyNone => false
  | PyBool b => b
  | PyInt z => negb (z =? 0)%Z
  end.

(** [text[-1] not in ".!?"] *)
Definition last_not_terminal (v : pyval) : result bool :=
  match v with
  | PyStr s =>
      match last s with
      | Some c => Ok (negb (is_terminal c))
      | None => Raise IndexError
      end
  | _ => Raise TypeError
  end.

(** [text += "."] *)
Definition py_append (suffix : pystr) (v : pyval) : result pyval :=
  match v with PyStr s => Ok (PyStr (s ++ suffix)) | _ => Raise TypeError end.

Definition clean_summary_try : M pyval pyval :=
  assign py_fix_text ;;
  assign unicodedata_normalize_NFKC ;;
  assign (py_re_sub spaces_re space_repl) ;;
  assign (py_re_sub space_punct_re space_punct_repl) ;;
  assign (py_re_sub sentence_re sentence_repl) ;;
  assign (py_re_sub contraction_re contraction_repl) ;;
  text ← get;
  (if truthy text then
     b ← lift (last_not_terminal text);
     if b : bool then assign (py_append [46]) else mret ()
   else mret ()) ;;
  text ← get;
  lift (py_strip text).

Definition clean_summary (text : pyval) : pyval :=
  match clean_summary_try text with
  | (Ok v, _) => v
  | (Raise _, text) => text
  end.

(** [clean_summary] on a string, step by step. *)
Definition clean_summary_str (text : pystr) : pystr :=
  let text := ftfy_fix_text text in
  let text := nfkc text in
  let text := re_sub spaces_re space_repl text in
  let text := re_sub space_punct_re space_punct_repl text in
  let text := re_sub sentence_re sentence_repl text in
  let text := re_sub contraction_re contraction_repl text in
  let text :=
    match last text with
    | Some c => if is_terminal c then text else text ++ [46]
    | None => text
    end in
  strip text.

End Cleaning.

(** ** The outside world *)

(** A parsed page, as the two XPath queries of the source see it. *)
Record tree := Tree {
  p_text : list pystr;                  (* //p/text() *)
  og_image_content : result (list pystr) (* //meta[@property='og:image']/@content *)
}.

Record response := Response {
  status_code : Z;
  set_cookies : list pystr;
  document : result tree                (* html.fromstring(response.content) *)
}.

(** [a["headline"]], [a["link"]] *)
Record RawArticle := RawArticle_ {
  headline : pyval;
  link : pystr
}.

(** What the program does to its environment, in order. *)
Inductive event : Type :=
  | EvGet (url : pystr) (headers : list (pystr * pystr))
          (session_cookies : list pystr) (cookies : option (list pystr))
  | EvSleep (seconds : N)
  | EvSummarize (input_text : pystr) (max_length min_length : N)
                (do_sample : bool)
  | EvClassify (text : pyval)
  | EvScrapeStatic (base_url headline_xpath link_xpath : pystr)
  | EvScrapeDynamic (base_url headline_xpath link_xpath : pystr)
  | EvNow.

Abbreviation World := (list event).

(** The collaborators.  Each answers the last event of the history it is
    given, and may depend on all of it. *)
Record Env := {
  session_get_oracle : World -> result response;
  summarizer : World -> result (list (option pyval));
      (* each item of the returned list, looked up at "summary_text" *)
  analyze_keywords : World -> result (option pyval);
      (* the returned dict, looked up at "final_sentiment" *)
  scrape_static_website : World -> result (list RawArticle);
  scrape_dynamic_website : World -> result (list RawArticle);
  utc_now_isoformat : World -> pystr
}.

Definition call {A} (oracle : World -> result A) (ev : event) : M World A :=
  fun w => (oracle (w ++ [ev]), w ++ [ev]).

(** [time.sleep(seconds)] *)
Definition sleep (seconds : N) : M World unit :=
  fun w => (Ok (), w ++ [EvSleep seconds]).

Definition HEADERS : list (pystr * pystr) :=
  [ (py "User-Agent", py "Mozilla/5.0 (Windows NT 10.0; Win64; x64) AppleWebKit/537.36 (KHTML, like Gecko) Chrome/117.0.0.0 Safari/537.36");
    (py "Accept-Language", py "en-US,en;q=0.9");
    (py "Referer", py "https://www.google.com/") ].

Definition CONTENT_NOT_AVAILABLE : pystr := py "Content not available".

(** [config] of [WEBSITE_CONFIG.items()] *)
Record SiteConfig := SiteConfig_ {
  base_url : pystr;
  headline_xpath : pystr;
  link_xpath : pystr;
  dynamic : bool
}.

(** [article_data] *)
Record Article := Article_ {
  a_headline : pyval;
  a_url : pystr;
  a_sentiment : pyval;
  a_summary : pyval;
  a_image : option pystr;
  a_timestamp : pystr
}.

Abbreviation Results := (gmap pystr (list Article)).

(** [{"positive": [], "neutral": [], "negative": []}] *)
Definition empty_results : Results :=
  <[py "positive" := []]> (<[py "neutral" := []]> (<[py "negative" := []]> ∅)).

Section Pipeline.
Context {U : UnicodeDB} (env : Env).

(** ** [extract_image] *)
Definition extract_image (t : tree) : option pystr :=
  match og_image_content t with
  | Ok (img :: _) => Some img
  | Ok [] => None
  | Raise _ => None
  end.

(** ** [fetch_full_article] *)

(** [session.get(url, headers=HEADERS, cookies=...)] on a session whose
    cookie jar is [jar]; the jar then holds the cookies of the response
    too. *)
Definition session_get (jar : list pystr) (url : pystr)
    (cookies : option (list pystr)) : M World (response * list pystr) :=
  r ← call (session_get_oracle env) (EvGet url HEADERS jar cookies);
  mret (r, jar ++ set_cookies r).

(** [response.raise_for_status()] *)
Definition raise_for_status (r : response) : M World unit :=
  if (400 <=? status_code r)%Z && (status_code r <? 600)%Z
  then lift (Raise HTTPError) else mret ().

Definition fetch_full_article_try (url : pystr)
    : M World (pystr * option pystr) :=
  '(response, jar) ← session_get [] url None;
  '(response, jar) ←
     (if (status_code response =? 403)%Z
      then sleep 2 ;; session_get jar url (Some jar)
      else mret (response, jar));
  raise_for_status response ;;
  tree ← lift (document response);
  let paragraphs := p_text tree in
  let content := strip (join (py " ") paragraphs) in
  let image_url := extract_image tree in
  mret (match content with [] => CONTENT_NOT_AVAILABLE | _ => content end,
        image_url).

Definition fetch_full_article (url : pystr) (w : World)
    : (pystr * option pystr) * World :=
  match fetch_full_article_try url w with
  | (Ok r, w') => (r, w')
  | (Raise _, w') => ((CONTENT_NOT_AVAILABLE, None), w')
  end.

(** ** [generate_summary] *)

Definition py_capitalize (v : pyval) : result pyval :=
  match v with PyStr s => Ok (PyStr (capitalize s)) | _ => Raise AttributeError end.

(** ["summarize: " + text[:2048]] *)
Definition summarize_input (v : pyval) : result pystr :=
  match v with
  | PyStr s => Ok (py "summarize: " ++ take 2048 s)
  | _ => Raise TypeError
  end.

(** [summary[0]["summary_text"]] *)
Definition first_summary_text (summary : list (option pyval)) : result pyval :=
  match summary with
  | [] => Raise IndexError
  | Some v :: _ => Ok v
  | None :: _ => Raise KeyError
  end.

(** [text[:300] + "..."] *)
Definition truncated (v : pyval) : result pyval :=
  match v with
  | PyStr s => Ok (PyStr (take 300 s ++ py "..."))
  | _ => Raise TypeError
  end.

(** The [try] body; the state is the variable [text] and the world. *)
Definition generate_summary_try : M (pyval * World) pyval :=
  on_fst (assign (fun text =>
    match text with PyStr _ => Ok text | _ => PyStr <$> py_str text end)) ;;
  on_fst (assign py_strip) ;;
  text ← on_fst get;
  if negb (truthy text)
  then mret (PyStr (py "No content available to summarize."))
  else
    input_length ← lift (len_split text);
    if (input_length <? 10)%nat then lift (py_capitalize text)
    else
      input_text ← lift (summarize_input text);
      summary ← on_snd (call (summarizer env)
                             (EvSummarize input_text 150 50 false));
      summary_text ← lift (first_summary_text summary);
      mret (clean_summary summary_text).

Definition generate_summary (text : pyval) (w : World)
    : result pyval * World :=
  match generate_summary_try (text, w) with
  | (Ok v, (_, w')) => (Ok v, w')
  | (Raise _, (text, w')) => (clean_summary <$> truncated text, w')
  end.

(** ** [process_news] *)

(** One turn of the first loop: the state is [seen_articles] and
    [filtered_articles]. *)
Definition dedup_step (site : pystr) (st : gset pystr * list RawArticle)
    (a : RawArticle) : gset pystr * list RawArticle :=
  let '(seen_articles, filtered_articles) := st in
  let cleaned_headline := clean_text (headline a) in
  let cleaned_link :=
    if bool_decide (site = py "guardian")
    then fix_guardian_link (link a) else link a in
  if bool_decide (cleaned_link ∈ seen_articles) then st
  else ({[cleaned_link]} ∪ seen_articles,
        filtered_articles ++ [RawArticle_ cleaned_headline cleaned_link]).

Definition dedup (site : pystr) (articles : list RawArticle)
    : list RawArticle :=
  snd (foldl (dedup_step site) (∅, []) articles).

(** [results[sentiment].append(article_data)] *)
Definition results_append (sentiment : pyval) (a : Article)
    : M Results unit :=
  fun res =>
    match sentiment with
    | PyStr k =>
        match res !! k with
        | Some l => (Ok (), <[k := l ++ [a]]> res)
        | None => (Raise KeyError, res)
        end
    | _ => (Raise KeyError, res)
    end.

(** One turn of the second loop. *)
Definition process_article (article : RawArticle)
    : M (Results * World) unit :=
  let headline := clean_text (headline article) in
  let url := link article in
  '(full_content, image_url) ←
     on_snd (fun w => let '(r, w') := fetch_full_article url w in (Ok r, w'));
  if bool_decide (full_content = CONTENT_NOT_AVAILABLE) then mret ()
  else
    sentiment_response ← on_snd (call (analyze_keywords env) (EvClassify headline));
    let sentiment := default (PyStr (py "neutral")) sentiment_response in
    summary ← on_snd (generate_summary (PyStr full_content));
    timestamp ← on_snd (fun w => (Ok (utc_now_isoformat env (w ++ [EvNow])),
                                  w ++ [EvNow]));
    let article_data :=
      Article_ headline url sentiment summary image_url timestamp in
    on_fst (results_append sentiment article_data) ;;
    on_snd (sleep 2).

Fixpoint for_each {S A} (body : A -> M S unit) (l : list A) : M S unit :=
  match l with
  | [] => mret ()
  | x :: l' => body x ;; for_each body l'
  end.

(** The body of the loop over [WEBSITE_CONFIG.items()]. *)
Definition process_site (site_config : pystr * SiteConfig)
    : M (Results * World) unit :=
  let '(site, config) := site_config in
  articles ←
    on_snd (if dynamic config
            then call (scrape_dynamic_website env)
                   (EvScrapeDynamic (base_url config) (headline_xpath config)
                                    (link_xpath config))
            else call (scrape_static_website env)
                   (EvScrapeStatic (base_url config) (headline_xpath config)
                                   (link_xpath config)));
  let filtered_articles := dedup site articles in
  for_each process_article filtered_articles.

(** [process_news]: the [results] it writes out, or the exception that
    ends the run. *)
Definition process_news (WEBSITE_CONFIG : list (pystr * SiteConfig))
    (w : World) : result Results * World :=
  match for_each process_site WEBSITE_CONFIG (empty_results, w) with
  | (Ok _, (results, w')) => (Ok results, w')
  | (Raise e, (_, w')) => (Raise e, w')
  end.

End Pipeline.

(** * Vocabulary of the properties *)

(** Does the text begin, or end, with whitespace? *)
Definition head_space (s : pystr) : bool :=
  match s with c :: _ => is_space c | [] => false end.

Definition last_space (s : pystr) : bool :=
  match last s with Some c => is_space c | None => false end.

(** Every whitespace character is one U+0020 with no whitespace after it. *)
Fixpoint single_spaced (s : pystr) : bool :=
  match s with
  | [] => true
  | c :: s' =>
      (if is_space c then (c =? 32) && negb (head_space s') else true)
      && single_spaced s'
  end.

(** The text after its leading run of a class. *)
Fixpoint drop_class (p : cp -> bool) (s : pystr) : pystr :=
  match s with
  | c :: s' => if p c then drop_class p s' else s
  | [] => []
  end.

(** The character before a position, once [consumed] has been passed. *)
Definition prev_after (prev : option cp) (consumed : pystr) : option cp :=
  match last consumed with Some c => Some c | None => prev end.

(** [re.search(r, s) is not None], scanning from a position on. *)
Fixpoint search_from {U : UnicodeDB} (r : regex) (prev : option cp)
    (s : pystr) : bool :=
  match s with
  | [] => false
  | c :: s' =>
      bool_decide (is_Some (match_at r prev s)) || search_from r (Some c) s'
  end.

(** Step (g) of the summary post-processor: a final full stop unless the
    text is empty or ends a sentence already. *)
Definition punctuate (text : pystr) : pystr :=
  match last text with
  | Some c => if is_terminal c then text else text ++ [46]
  | None => text
  end.

(** The text [clean_summary] holds when it reaches that step: repaired,
    normalized, and through the four substitutions of lines 122-129. *)
Definition summary_body {U : UnicodeDB} (raw : pystr) : pystr :=
  re_sub contraction_re contraction_repl
    (re_sub sentence_re sentence_repl
       (re_sub space_punct_re space_punct_repl
          (re_sub spaces_re space_repl (nfkc (ftfy_fix_text raw))))).

(** The trimmed text with only its first letter put in upper case, as the
    specification words the short-input rule of the summarizer. *)
Definition first_letter_capitalized (s : pystr) : pystr :=
  match s with
  | [] => []
  | c :: s' => ascii_upper c :: s'
  end.

(** The test of [filter_headlines] on a cleaned headline. *)
Definition keeps_headline {U : UnicodeDB} (h : pystr) : bool :=
  negb (length (split h) <=? 2)%nat
  && negb (contains (py "video") (str_lower h)
           || contains (py "advertisement") (str_lower h)).

(** What lines 98-107 of the source make of a response that passed
    [raise_for_status]. *)
Definition page_result (r : response) : pystr * option pystr :=
  match document r with
  | Ok t =>
      let content := strip (join (py " ") (p_text t)) in
      (match content with [] => CONTENT_NOT_AVAILABLE | _ => content end,
       extract_image t)
  | Raise _ => (CONTENT_NOT_AVAILABLE, None)
  end.

(** The statuses [raise_for_status] raises on. *)
Definition is_error_status (r : response) : bool :=
  (400 <=? status_code r)%Z && (status_code r <? 600)%Z.

(** [link] as the first loop of [process_news] resolves it. *)
Definition resolve (site link : pystr) : pystr :=
  if bool_decide (site = py "guardian") then fix_guardian_link link else link.

(** The invariant of the first loop: [seen_articles] is the set of the
    links kept, and no link is kept twice. *)
Definition dedup_inv (st : gset pystr * list RawArticle) : Prop :=
  NoDup (map link st.2) /\ forall x, x ∈ st.1 <-> x ∈ map link st.2.

#[global] Instance pyval_eq_dec : EqDecision pyval.
Proof. solve_decision. Defined.

(** [res'] is [res] with the articles [added] appended, each to the bucket
    of its sentiment, in order. *)
Definition appended (res res' : Results) (added : list Article) : Prop :=
  forall k, res' !! k
    = (fun l => l ++ filter (fun a => a_sentiment a = PyStr k) added) <$> (res !! k).

(** * Sample tables and environments

    The statements about one concrete run are evaluated with these. *)

Definition latin1_letter (c : cp) : bool :=
  (c =? 0xAA) || (c =? 0xB5) || (c =? 0xBA) || in_range 0xC0 0xD6 c
  || in_range 0xD8 0xF6 c || in_range 0xF8 0xFF c.
Definition latin1_lower (c : cp) : bool :=
  (c =? 0xAA) || (c =? 0xB5) || (c =? 0xBA) || in_range 0xDF 0xF6 c
  || in_range 0xF8 0xFF c.
Definition latin1_number (c : cp) : bool :=
  (c =? 0xB2) || (c =? 0xB3) || (c =? 0xB9) || in_range 0xBC 0xBE c.

(** The characters the step [remove_control_chars] of [ftfy.fix_text]
    deletes: the ASCII control characters that are not whitespace, the
    deprecated Arabic controls, the byte order mark and the interlinear
    annotation characters. *)
Definition ftfy_control_char (c : cp) : bool :=
  in_range 0x00 0x08 c || (c =? 0x0B) || in_range 0x0E 0x1F c || (c =? 0x7F)
  || in_range 0x206A 0x206F c || (c =? 0xFEFF) || in_range 0xFFF9 0xFFFC c.

(** The tables on plain text over Basic Latin and the letters U+00C0 to
    U+00FF: such text is in NFKC form, [ftfy] deletes its control
    characters and finds nothing else to repair in it, and the character
    classes are those of the Latin-1 Supplement.  Carriage returns,
    mis-decoded text, HTML entities and the case mappings are not
    tabulated; no statement below evaluates them. *)
Definition latin1_db : UnicodeDB := {|
  nfkc_table s := s;
  ftfy_fix_text s := List.filter (fun c => negb (ftfy_control_char c)) s;
  isalnum_table c := latin1_letter c || latin1_number c;
  isalpha_table := latin1_letter;
  islower_table := latin1_lower;
  lower_table s := s;
  upper_table s := s;
  capitalize_table s := s
|}.

Definition is_get (e : event) : bool :=
  match e with EvGet _ _ _ _ => true | _ => false end.
Definition is_scrape (e : event) : bool :=
  match e with
  | EvScrapeStatic _ _ _ | EvScrapeDynamic _ _ _ => true
  | _ => false
  end.

(** An environment that plays a script: the n-th GET gets the n-th
    response (a connection error once they run out), the n-th scrape the
    n-th batch, the model always answers [model], the classifier returns a
    dict without "final_sentiment". *)
Definition scripted (responses : list (result response))
    (model : result (list (option pyval)))
    (batches : list (list RawArticle)) : Env := {|
  session_get_oracle w :=
    nth (pred (length (List.filter is_get w))) responses (Raise ConnectionError);
  summarizer _ := model;
  analyze_keywords _ := Ok None;
  scrape_static_website w :=
    Ok (nth (pred (length (List.filter is_scrape w))) batches []);
  scrape_dynamic_website w :=
    Ok (nth (pred (length (List.filter is_scrape w))) batches []);
  utc_now_isoformat _ := py "2024-01-01T00:00:00+00:00"
|}.

Definition page (paragraphs : list pystr) : response :=
  Response 200 [] (Ok (Tree paragraphs (Ok []))).
Definition forbidden : response :=
  Response 403 [py "session=1"] (Ok (Tree [] (Ok []))).
Definition article_page : response :=
  page [py "Shares dropped."; py "Bonds rose."].

Definition story : RawArticle :=
  RawArticle_ (PyStr (py "Markets fell sharply today"))
              (py "https://news.example/story").
Definition teaser : RawArticle :=
  RawArticle_ (PyStr (py "Watch video")) (py "https://news.example/clip").
Definition static_site (url : string) : SiteConfig :=
  SiteConfig_ (py url) (py "//h3") (py "//a/@href") false.
Definition two_sites : list (pystr * SiteConfig) :=
  [ (py "bbc", static_site "https://a.example");
    (py "cnn", static_site "https://b.example") ].

(** No network, and a model that fails. *)
Definition offline : Env := scripted [] (Raise RuntimeError) [].
(** A 403, then the page. *)
Definition retry_env : Env :=
  scripted [Ok forbidden; Ok article_page] (Raise RuntimeError) [].
(** Two sites that list the same story. *)
Definition two_sites_env : Env :=
  scripted [Ok article_page; Ok article_page] (Raise RuntimeError)
           [[story]; [story]].
(** One site that lists a video teaser. *)
Definition teaser_env : Env :=
  scripted [Ok article_page] (Raise RuntimeError) [[teaser]].

Definition ten_words : pystr := py "xx xx xx xx xx xx xx xx xx xx".

(** * Further vocabulary *)

Definition is_str (v : pyval) : bool :=
  match v with PyStr _ => true | _ => false end.

(** What the first loop of [process_news] stores for an entry. *)
Definition cleaned_entry {U : UnicodeDB} (site : pystr) (a : RawArticle)
    : RawArticle :=
  RawArticle_ (clean_text (headline a)) (resolve site (link a)).

(** The text of a value that [str] converts. *)
Definition str_text (content : pyval) : pystr :=
  match py_str content with Ok s => s | Raise _ => [] end.

(** The one call [generate_summary] makes to the model. *)
Definition model_input (content : pyval) : pystr :=
  py "summarize: " ++ take 2048 (strip (str_text content)).
Definition model_call (content : pyval) : event :=
  EvSummarize (model_input content) 150 50 false.

(** The scrape call [process_news] makes for a site, and who answers it. *)
Definition scrape_event (config : SiteConfig) : event :=
  if dynamic config
  then EvScrapeDynamic (base_url config) (headline_xpath config)
                       (link_xpath config)
  else EvScrapeStatic (base_url config) (headline_xpath config)
                      (link_xpath config).
Definition scrape_oracle (env : Env) (config : SiteConfig)
    : World -> result (list RawArticle) :=
  if dynamic config then scrape_dynamic_website env
  else scrape_static_website env.

(** The keys of [results]. *)
Definition SENTIMENTS : list pystr :=
  [py "positive"; py "neutral"; py "negative"].

(** The article [a] was made from the entry [b] of [filtered_articles]. *)
Definition emitted_from {U : UnicodeDB} (b : RawArticle) (a : Article) : Prop :=
  a_url a = link b /\ a_headline a = clean_text (headline b).

(** More sample environments. *)

(** A 403 on the first request and on the retry. *)
Definition blocked_env : Env :=
  scripted [Ok forbidden; Ok forbidden] (Raise RuntimeError) [].
(** A page with a cover image and no paragraph text. *)
Definition cover_only : response :=
  Response 200 [] (Ok (Tree [py "  "] (Ok [py "https://news.example/cover.png"]))).
Definition cover_only_env : Env :=
  scripted [Ok cover_only] (Raise RuntimeError) [].
(** One site that lists the story, and answers with its page. *)
Definition story_env : Env :=
  scripted [Ok article_page] (Raise RuntimeError) [[story]].
(** Scrape backends that cannot connect. *)
Definition unreachable_env : Env := {|
  session_get_oracle := session_get_oracle offline;
  summarizer := summarizer offline;
  analyze_keywords := analyze_keywords offline;
  scrape_static_website _ := Raise ConnectionError;
  scrape_dynamic_website _ := Raise ConnectionError;
  utc_now_isoformat := utc_now_isoformat offline
|}.

(** * Tactics *)

Ltac char_lia :=
  unfold is_letter, is_upper_AZ, is_lower_az, is_digit, is_space, is_ascii,
    is_terminal, is_punct, is_smtdl, is_surrogate, is_printable_ascii,
    ascii_upper, ascii_lower, in_range in *;
  lia.

Ltac unfold_m :=
  unfold mbind, M_bind, mret, M_ret, result_bind, assign, get, put, lift,
    on_fst, on_snd, call, sleep in *.

Ltac fetch_tail :=
  unfold raise_for_status, page_result, is_error_status; unfold_m;
  destruct (_ && _); [done|];
  match goal with |- context [document ?r] => by destruct (document r) end.

(** * Properties *)

(** ** Trimming *)

Section StringFacts.
Context {U : UnicodeDB}.

Lemma lstrip_head s : head_space (lstrip s) = false.
Proof.
  induction s as [|c s IH]; simpl; [done|].
  destruct (is_space c) eqn:E; [done|]. simpl. by rewrite E.
Qed.

Lemma lstrip_id s : head_space s = false -> lstrip s = s.
Proof. destruct s as [|c s]; simpl; [done|]. by intros ->. Qed.

Lemma rstrip_cons c s :
  is_space c = false -> exists r, rstrip (c :: s) = c :: r.
Proof. intros E. simpl. destruct (rstrip s); rewrite ?E; eauto. Qed.

Lemma rstrip_head s : head_space s = false -> head_space (rstrip s) = false.
Proof.
  destruct s as [|c s]; [done|]. intros E. simpl in E.
  destruct (rstrip_cons c s E) as [r Hr]. rewrite Hr. done.
Qed.

Lemma rstrip_last s : last_space (rstrip s) = false.
Proof.
  unfold last_space. induction s as [|c s IH]; simpl; [done|].
  destruct (rstrip s) as [|d r] eqn:E.
  - destruct (is_space c) eqn:Ec; simpl; [done|]. by rewrite Ec.
  - by rewrite last_cons_cons.
Qed.

Lemma rstrip_id s : last_space s = false -> rstrip s = s.
Proof.
  unfold last_space. induction s as [|c [|d s] IH]; [done| |].
  - simpl. by intros ->.
  - rewrite last_cons_cons. intros H. specialize (IH H).
    change (rstrip (c :: d :: s)) with
      (match rstrip (d :: s) with
       | [] => if is_space c then [] else [c]
       | r => c :: r
       end).
    by rewrite IH.
Qed.

Lemma strip_id s : head_space s = false -> last_space s = false -> strip s = s.
Proof. intros H1 H2. unfold strip. by rewrite (lstrip_id _ H1), rstrip_id. Qed.

Lemma strip_head s : head_space (strip s) = false.
Proof. apply rstrip_head, lstrip_head. Qed.

Lemma strip_last s : last_space (strip s) = false.
Proof. apply rstrip_last. Qed.

Lemma strip_strip s : strip (strip s) = strip s.
Proof. apply strip_id; [apply strip_head | apply strip_last]. Qed.

Lemma strip_cons c s : is_space c = false -> exists r, strip (c :: s) = c :: r.
Proof.
  intros E. unfold strip. simpl. rewrite E. by apply rstrip_cons.
Qed.

Lemma lstrip_Forall (P : cp -> Prop) s : Forall P s -> Forall P (lstrip s).
Proof.
  induction 1 as [|c s Hc Hs IH]; simpl; [done|].
  destruct (is_space c); auto.
Qed.

Lemma rstrip_Forall (P : cp -> Prop) s : Forall P s -> Forall P (rstrip s).
Proof.
  induction 1 as [|c s Hc Hs IH]; simpl; [done|].
  destruct (rstrip s); [destruct (is_space c)|]; auto.
Qed.

Lemma strip_Forall (P : cp -> Prop) s : Forall P s -> Forall P (strip s).
Proof. intros. by apply rstrip_Forall, lstrip_Forall. Qed.

Lemma lstrip_snoc s c : is_space c = false -> lstrip (s ++ [c]) = lstrip s ++ [c].
Proof.
  intros E. induction s as [|d s IH]; simpl; [by rewrite E|].
  destruct (is_space d); done.
Qed.

Lemma rstrip_snoc s c : is_space c = false -> rstrip (s ++ [c]) = s ++ [c].
Proof.
  intros E. induction s as [|d s IH]; simpl; [by rewrite E|].
  rewrite IH. by destruct s.
Qed.

Lemma strip_snoc s c : is_space c = false -> strip (s ++ [c]) = lstrip s ++ [c].
Proof. intros E. unfold strip. by rewrite lstrip_snoc, rstrip_snoc. Qed.

End StringFacts.

(** ** Matching and substitution *)

Section RegexFacts.
Context {U : UnicodeDB}.

Lemma lstrip_drop_class s : lstrip s = drop_class is_space s.
Proof. induction s as [|c s IH]; simpl; [done|]. by rewrite IH. Qed.

Lemma drop_class_length p s : (length (drop_class p s) <= length s)%nat.
Proof. induction s as [|c s IH]; simpl; [lia|]. destruct (p c); simpl; lia. Qed.

Lemma drop_class_drop p s :
  drop (length s - length (drop_class p s)) s = drop_class p s.
Proof.
  induction s as [|c s IH]; simpl; [done|].
  destruct (p c); simpl.
  - pose proof (drop_class_length p s).
    replace (S (length s) - length (drop_class p s))%nat
      with (S (length s - length (drop_class p s))) by lia.
    simpl. apply IH.
  - by rewrite Nat.sub_diag.
Qed.

(** A [+] whose continuation accepts takes the whole run. *)
Lemma plus_loop_accept p gs c s :
  p c = true ->
  exists prev', plus_loop p gs Some (c :: s)
                = Some (MState prev' (drop_class p s) gs).
Proof.
  revert c. induction s as [|d s IH]; intros c Hc; simpl; rewrite Hc.
  - eauto.
  - destruct (p d) eqn:Hd.
    + destruct (IH d Hd) as [prev' E]. simpl in E. rewrite Hd in E.
      rewrite E. eauto.
    + eauto.
Qed.

Lemma plus_loop_reject p gs k c s : p c = false -> plus_loop p gs k (c :: s) = None.
Proof. intros H. simpl. by rewrite H. Qed.

(** Whatever the continuation, [+] hands it a proper suffix. *)
Lemma plus_loop_inv p gs k s st :
  plus_loop p gs k s = Some st ->
  exists c pre rest prev',
    s = c :: pre ++ rest /\ p c = true /\
    k (MState prev' rest gs) = Some st.
Proof.
  revert st. induction s as [|c s IH]; intros st; simpl; [done|].
  destruct (p c) eqn:Hc; [|done].
  destruct (plus_loop p gs k s) as [st'|] eqn:E.
  - intros [= <-]. destruct (IH st' eq_refl) as (d & pre & rest & prev' & -> & Hd & Hk).
    exists c, (d :: pre), rest, prev'. done.
  - intros Hk. exists c, [], s, (Some c). done.
Qed.

(** *** [re.sub] in general *)

Lemma sub_from_skip r repl prev n s :
  sub_from r repl prev n s
  = sub_from r repl (prev_after prev (take n s)) 0 (drop n s).
Proof.
  revert prev n. induction s as [|c s IH]; intros prev n.
  - by destruct n.
  - destruct n as [|n]; [done|]. simpl sub_from at 1. rewrite IH.
    simpl take. simpl drop. f_equal. unfold prev_after.
    rewrite last_cons. by destruct (last (take n s)).
Qed.

Lemma sub_from_Forall (P : cp -> Prop) r repl prev n s :
  (forall gs, Forall P (repl gs)) -> Forall P s ->
  Forall P (sub_from r repl prev n s).
Proof.
  intros Hr Hs. revert prev n.
  induction Hs as [|c s Hc Hs IH]; intros prev n; simpl; [done|].
  destruct n; [|apply IH].
  destruct (match_at r prev (c :: s)) as [[gs [|m]]|];
    repeat first [apply Forall_app; split | apply Forall_cons; split]; auto.
Qed.

Lemma sub_from_Forall_unmatched (P : cp -> Prop) r repl prev n s :
  (forall gs, Forall P (repl gs)) ->
  (forall prev c s', P c \/ exists gs m, match_at r prev (c :: s') = Some (gs, S m)) ->
  Forall P (sub_from r repl prev n s).
Proof.
  intros Hr Hm. revert prev n.
  induction s as [|c s IH]; intros prev n; simpl; [done|].
  destruct n; [|apply IH].
  destruct (Hm prev c s) as [Hc|(gs & m & ->)].
  - destruct (match_at r prev (c :: s)) as [[gs [|m]]|];
      repeat first [apply Forall_app; split | apply Forall_cons; split]; auto.
  - apply Forall_app; split; auto.
Qed.

Lemma sub_from_no_match r repl prev s :
  search_from r prev s = false -> sub_from r repl prev 0 s = s.
Proof.
  revert prev. induction s as [|c s IH]; intros prev; [done|].
  simpl. intros [H1 H2]%orb_false_elim.
  destruct (match_at r prev (c :: s)) as [x|].
  - apply bool_decide_eq_false in H1. destruct H1. eauto.
  - by rewrite IH.
Qed.

Lemma sub_from_nonempty r repl prev s :
  (forall prev s' gs n, match_at r prev s' = Some (gs, n) -> repl gs <> []) ->
  s <> [] -> sub_from r repl prev 0 s <> [].
Proof.
  intros Hr Hs. destruct s as [|c s]; [done|]. simpl.
  destruct (match_at r prev (c :: s)) as [[gs [|m]]|] eqn:E; [| |done].
  - by destruct (repl gs).
  - specialize (Hr _ _ _ _ E). by destruct (repl gs).
Qed.

(** *** [\s+] *)

Lemma match_spaces prev c s :
  match_at spaces_re prev (c :: s)
  = if is_space c
    then Some ([], S (length s - length (lstrip s)))
    else None.
Proof.
  unfold match_at, spaces_re. cbn [run m_rest m_groups].
  destruct (is_space c) eqn:Hc.
  - destruct (plus_loop_accept is_space [] c s Hc) as [prev' ->].
    cbn [m_rest m_groups]. rewrite <- lstrip_drop_class.
    pose proof (drop_class_length is_space s) as Hl.
    rewrite <- lstrip_drop_class in Hl.
    do 2 f_equal. simpl length. lia.
  - by rewrite plus_loop_reject.
Qed.

Lemma sub_spaces_cons prev c s :
  sub_from spaces_re space_repl prev 0 (c :: s)
  = if is_space c
    then 32 :: sub_from spaces_re space_repl
                 (prev_after (Some c) (take (length s - length (lstrip s)) s))
                 0 (lstrip s)
    else c :: sub_from spaces_re space_repl (Some c) 0 s.
Proof.
  simpl sub_from. rewrite match_spaces. destruct (is_space c); [|done].
  rewrite sub_from_skip. rewrite lstrip_drop_class at 2.
  rewrite drop_class_drop, <- lstrip_drop_class. done.
Qed.

Lemma sub_spaces_single_spaced_aux n : forall s prev,
  (length s <= n)%nat ->
  single_spaced (sub_from spaces_re space_repl prev 0 s) = true /\
  (head_space s = false ->
   head_space (sub_from spaces_re space_repl prev 0 s) = false).
Proof.
  induction n as [|n IH]; intros [|c s] prev Hn; simpl in Hn; try done; [lia|].
  rewrite sub_spaces_cons. destruct (is_space c) eqn:Hc.
  - pose proof (drop_class_length is_space s) as Hl.
    rewrite <- lstrip_drop_class in Hl.
    edestruct (IH (lstrip s)) as [H1 H2]; [lia|].
    split; [|simpl; congruence].
    simpl. rewrite (H2 (lstrip_head s)), H1. done.
  - edestruct (IH s) as [H1 H2]; [lia|].
    split; [|done]. simpl. by rewrite Hc, H1.
Qed.

Lemma sub_spaces_single_spaced s :
  single_spaced (re_sub spaces_re space_repl s) = true.
Proof. by apply (sub_spaces_single_spaced_aux (length s)). Qed.

Lemma sub_spaces_id prev s :
  single_spaced s = true -> sub_from spaces_re space_repl prev 0 s = s.
Proof.
  revert prev. induction s as [|c s IH]; intros prev; [done|].
  simpl single_spaced. intros [H1 H2]%andb_prop.
  rewrite sub_spaces_cons. destruct (is_space c) eqn:Hc.
  - apply andb_prop in H1 as [H1 H3]. apply negb_true_iff in H3.
    rewrite (lstrip_id _ H3), IH by done. f_equal. lia.
  - by rewrite IH.
Qed.

Lemma single_spaced_lstrip s : single_spaced s = true -> single_spaced (lstrip s) = true.
Proof.
  induction s as [|c s IH]; [done|]. simpl.
  destruct (is_space c) eqn:Hc.
  - intros [_ H]%andb_prop. auto.
  - intros H. simpl. by rewrite Hc.
Qed.

Lemma single_spaced_rstrip s : single_spaced s = true -> single_spaced (rstrip s) = true.
Proof.
  induction s as [|c s IH]; [done|].
  simpl single_spaced. intros [H1 H2]%andb_prop. specialize (IH H2).
  simpl rstrip. destruct (rstrip s) as [|d r] eqn:E.
  - destruct (is_space c) eqn:Hc; [done|]. simpl. by rewrite Hc.
  - change (single_spaced (c :: d :: r)) with
      ((if is_space c then (c =? 32) && negb (is_space d) else true)
       && single_spaced (d :: r)).
    rewrite IH, andb_true_r. destruct (is_space c); [|done].
    apply andb_prop in H1 as [-> H3]. apply negb_true_iff in H3.
    pose proof (rstrip_head s H3) as H4. rewrite E in H4. simpl in H4.
    by rewrite H4.
Qed.

Lemma single_spaced_strip s : single_spaced s = true -> single_spaced (strip s) = true.
Proof. intros. by apply single_spaced_rstrip, single_spaced_lstrip. Qed.

End RegexFacts.

(** ** [clean_text] on strings *)

Section CleanText.
Context {U : UnicodeDB}.

Lemma clean_text_PyStr s : clean_text (PyStr s) = PyStr (clean_text_str s).
Proof. reflexivity. Qed.

Lemma match_non_ascii prev c s :
  is_ascii c = true \/
  exists gs m, match_at non_ascii_re prev (c :: s) = Some (gs, S m).
Proof.
  destruct (is_ascii c) eqn:Hc; [by left|right].
  unfold match_at, non_ascii_re. cbn [run m_rest m_groups].
  destruct (plus_loop_accept (fun c => negb (is_ascii c)) [] c s) as [prev' ->];
    [by rewrite Hc|].
  cbn [m_rest m_groups].
  pose proof (drop_class_length (fun c => negb (is_ascii c)) s).
  eexists [], _. do 2 f_equal. simpl length.
  by rewrite Nat.sub_succ_l.
Qed.

Lemma sub_non_ascii_id prev s :
  Forall (fun c => is_ascii c = true) s ->
  sub_from non_ascii_re space_repl prev 0 s = s.
Proof.
  intros Hs. revert prev. induction Hs as [|c s Hc Hs IH]; intros prev; [done|].
  simpl. unfold match_at, non_ascii_re. cbn [run m_rest m_groups].
  rewrite plus_loop_reject by (by rewrite Hc). by rewrite IH.
Qed.

Lemma single_spaced_Forall s :
  single_spaced s = true -> Forall (fun c => is_space c = true -> c = 32) s.
Proof.
  induction s as [|c s IH]; [done|]. simpl. intros [H1 H2]%andb_prop.
  constructor; [|auto]. intros Hc. rewrite Hc in H1. lia.
Qed.

Lemma single_spaced_adjacent pre c d post :
  single_spaced (pre ++ c :: d :: post) = true ->
  is_space c = true -> is_space d = false.
Proof.
  induction pre as [|x pre IH]; simpl.
  - intros [H _]%andb_prop Hc. rewrite Hc in H.
    apply andb_prop in H as [_ H]. by apply negb_true_iff in H.
  - intros [_ H]%andb_prop. by apply IH.
Qed.

Lemma forallb_ascii s :
  Forall (fun c => is_ascii c = true) s -> forallb is_ascii s = true.
Proof. induction 1; simpl; [done|]. by apply andb_true_intro. Qed.

Lemma nfkc_ascii s : Forall (fun c => is_ascii c = true) s -> nfkc s = s.
Proof. intros H. unfold nfkc. by rewrite forallb_ascii. Qed.

Lemma utf8_roundtrip_ascii s :
  Forall (fun c => is_ascii c = true) s -> utf8_roundtrip s = s.
Proof.
  unfold utf8_roundtrip. induction 1 as [|c s Hc Hs IH]; simpl; [done|].
  rewrite IH. replace (is_surrogate c) with false; [done|].
  unfold is_surrogate, is_ascii, in_range in *. lia.
Qed.

(** What [clean_text] leaves: Basic Latin, single spaces, no margin. *)
Lemma clean_text_str_ascii text :
  Forall (fun c => is_ascii c = true) (clean_text_str text).
Proof.
  unfold clean_text_str. apply strip_Forall.
  apply sub_from_Forall; [by repeat constructor|].
  apply sub_from_Forall_unmatched; [by repeat constructor|].
  apply match_non_ascii.
Qed.

Lemma clean_text_str_single_spaced text :
  single_spaced (clean_text_str text) = true.
Proof. apply single_spaced_strip, sub_spaces_single_spaced. Qed.

Lemma clean_text_str_fixed y :
  Forall (fun c => is_ascii c = true) y -> single_spaced y = true ->
  strip y = y ->
  search_from contraction_re None y = false ->
  clean_text_str y = y.
Proof.
  intros Ha Hs Ht Hc. unfold clean_text_str.
  rewrite (nfkc_ascii _ Ha), (utf8_roundtrip_ascii _ Ha).
  unfold re_sub. rewrite (sub_from_no_match _ _ _ _ Hc).
  rewrite (sub_non_ascii_id _ _ Ha), (sub_spaces_id _ _ Hs). done.
Qed.

(** Claim C2, as amended.  Normalizing twice gives what normalizing once
    gives whenever the normalized text holds no further match of the
    apostrophe pattern (a word, one whitespace character, one of s, m, t,
    d, l at a word boundary).  Without that condition the second pass
    restores one more apostrophe. *)
Theorem clean_text_idempotent_when_settled (x : pystr) :
  search_from contraction_re None (clean_text_str x) = false ->
  clean_text (clean_text (PyStr x)) = clean_text (PyStr x).
Proof.
  intros H. rewrite !clean_text_PyStr. f_equal.
  apply clean_text_str_fixed; auto using clean_text_str_ascii, clean_text_str_single_spaced.
  unfold clean_text_str. apply strip_strip.
Qed.

End CleanText.

(** ** [clean_summary] on strings *)

Section CleanSummary.
Context {U : UnicodeDB}.

Lemma clean_summary_PyStr s : clean_summary (PyStr s) = PyStr (clean_summary_str s).
Proof.
  unfold clean_summary, clean_summary_str, clean_summary_try.
  unfold mbind, M_bind, mret, M_ret, assign, get, lift.
  cbn -[re_sub strip nfkc last].
  set (t := re_sub contraction_re contraction_repl _).
  destruct t as [|c t'] eqn:E; [done|].
  cbn -[re_sub strip nfkc last].
  destruct (last (c :: t')) as [d|] eqn:El; [|by apply last_None in El].
  cbn -[re_sub strip nfkc last]. destruct (is_terminal d); done.
Qed.

(** *** What a match of each pattern looks like *)

Lemma match_space_punct_head prev c s :
  is_space c = false -> match_at space_punct_re prev (c :: s) = None.
Proof. intros H. unfold match_at. cbn. by rewrite H. Qed.

Lemma match_space_punct_inv prev s gs n :
  match_at space_punct_re prev s = Some (gs, n) ->
  exists p, gs = [[p]].
Proof.
  unfold match_at. destruct s as [|c s]; [done|]. cbn.
  destruct (is_space c); [|done]. destruct s as [|p s]; [done|]. cbn.
  destruct (is_punct p); [|done]. cbn. intros [= <- <-].
  replace (S (length s) - length s)%nat with 1%nat by lia. eauto.
Qed.

Lemma match_sentence_inv prev s gs n :
  match_at sentence_re prev s = Some (gs, n) ->
  exists g1 c, gs = [g1; [c]] /\ is_lower_az c = true.
Proof.
  unfold match_at, sentence_re.
  destruct (run _ _ _) as [st|] eqn:E; [|done]. intros [= <- <-].
  cbn [run m_prev m_rest m_groups] in E.
  match type of E with (match ?a with _ => _ end) = _ => destruct a as [st'|] eqn:E1 end.
  - injection E as ->. destruct prev; [done|]. cbn in E1.
    destruct s as [|c s]; [done|]. destruct (is_lower_az c) eqn:Hc; [|done].
    injection E1 as <-. cbn. rewrite Nat.sub_diag.
    replace (S (length s) - length s)%nat with 1%nat by lia. cbn. eauto.
  - destruct s as [|t s]; [done|]. destruct (is_terminal t); [|done].
    apply plus_loop_inv in E as (c & pre & rest & prev' & -> & Hc & E).
    cbn in E. destruct rest as [|d rest]; [done|].
    destruct (is_lower_az d) eqn:Hd; [|done]. injection E as <-.
    cbn. replace (S (length rest) - length rest)%nat with 1%nat by lia.
    cbn. eauto.
Qed.

Lemma match_contraction_inv prev s gs n :
  match_at contraction_re prev s = Some (gs, n) ->
  head (contraction_repl gs) = head s.
Proof.
  unfold match_at, contraction_re.
  destruct (run _ _ _) as [st|] eqn:E; [|done]. intros [= <- <-].
  cbn [run m_prev m_rest m_groups] in E.
  destruct (word_boundary prev (head s)); [|done].
  apply plus_loop_inv in E as (c & pre & rest & prev' & -> & Hc & E).
  cbn [m_prev m_rest m_groups] in E.
  destruct rest as [|sp [|d rest]]; [done| |].
  - by destruct (is_space sp).
  - destruct (is_space sp); [|done]. destruct (is_smtdl d); [|done].
    cbn [m_prev m_rest m_groups] in E.
    destruct (word_boundary (Some d) (head rest)); [|done].
    injection E as <-. cbn [m_groups app].
    unfold contraction_repl, group. cbn [nth pred length].
    match goal with
    | |- context [take ?n (c :: _)] =>
        replace n with (S (length pre)) by (rewrite ?length_app; simpl; lia)
    end.
    done.
Qed.

(** *** The first character through the steps *)

Lemma sub_spaces_head prev c s :
  is_space c = false ->
  exists r, sub_from spaces_re space_repl prev 0 (c :: s) = c :: r.
Proof. intros H. rewrite sub_spaces_cons, H. eauto. Qed.

Lemma sub_space_punct_head prev c s :
  is_space c = false ->
  exists r, sub_from space_punct_re space_punct_repl prev 0 (c :: s) = c :: r.
Proof. intros H. simpl. rewrite match_space_punct_head by done. eauto. Qed.

Lemma str_upper_letter c : is_letter c = true -> str_upper [c] = [ascii_upper c].
Proof.
  intros H. unfold str_upper. simpl.
  replace (is_ascii c) with true; [done|]. char_lia.
Qed.

Lemma sub_sentence_head c s :
  is_letter c = true ->
  exists r, sub_from sentence_re sentence_repl None 0 (c :: s)
            = ascii_upper c :: r.
Proof.
  intros H. simpl sub_from. unfold match_at, sentence_re.
  cbn [run m_prev m_rest m_groups].
  destruct (is_lower_az c) eqn:Hl.
  - cbn [m_rest m_groups app length]. rewrite Nat.sub_diag.
    replace (S (length s) - length s)%nat with 1%nat by lia.
    unfold sentence_repl, group. cbn [nth pred take app].
    rewrite str_upper_letter by done. simpl. eauto.
  - replace (is_terminal c) with false by char_lia.
    unfold ascii_upper. rewrite Hl. eauto.
Qed.

Lemma sub_contraction_head prev c s :
  exists r, sub_from contraction_re contraction_repl prev 0 (c :: s) = c :: r.
Proof.
  simpl sub_from.
  destruct (match_at contraction_re prev (c :: s)) as [[gs n]|] eqn:E; [|eauto].
  apply match_contraction_inv in E. simpl in E.
  destruct (contraction_repl gs) as [|c' r]; [done|]. injection E as ->.
  destruct n; simpl; eauto.
Qed.

End CleanSummary.

Section CleanSummaryShape.
Context {U : UnicodeDB}.

Lemma sentence_repl_nonempty prev s gs n :
  match_at sentence_re prev s = Some (gs, n) -> sentence_repl gs <> [].
Proof.
  intros (g1 & c & -> & Hc)%match_sentence_inv.
  unfold sentence_repl, group. cbn [nth pred].
  rewrite str_upper_letter by char_lia. by destruct g1.
Qed.

Lemma space_punct_repl_nonempty prev s gs n :
  match_at space_punct_re prev s = Some (gs, n) -> space_punct_repl gs <> [].
Proof. by intros [p ->]%match_space_punct_inv. Qed.

Lemma contraction_repl_nonempty gs : contraction_repl gs <> [].
Proof. unfold contraction_repl. by destruct (group gs 1). Qed.

Lemma punctuate_last text :
  text <> [] -> exists pre d, punctuate text = pre ++ [d] /\ is_terminal d = true.
Proof.
  intros H. unfold punctuate. destruct (last text) as [c|] eqn:E.
  - destruct (is_terminal c) eqn:Hc.
    + apply last_Some in E as [pre ->]. eauto.
    + by exists text, 46.
  - by apply last_None in E.
Qed.

Lemma punctuate_head c text : exists r, punctuate (c :: text) = c :: r.
Proof.
  unfold punctuate. destruct (last (c :: text)) as [d|]; [|eauto].
  destruct (is_terminal d); simpl; eauto.
Qed.

Lemma summary_body_nonempty raw :
  nfkc (ftfy_fix_text raw) <> [] -> summary_body raw <> [].
Proof.
  intros H. unfold summary_body.
  apply sub_from_nonempty; [intros; apply contraction_repl_nonempty|].
  apply sub_from_nonempty; [apply sentence_repl_nonempty|].
  apply sub_from_nonempty; [apply space_punct_repl_nonempty|].
  apply sub_from_nonempty; [done|done].
Qed.

(** Claim C7, as amended.  When the text left by the encoding repair and
    the NFKC normalization is not empty, the post-processed summary ends
    with a full stop, an exclamation mark or a question mark: it is the
    text the substitutions leave, trimmed, with a full stop appended
    exactly when that text does not end with one of the three already.
    When the repaired text begins with a letter of A-Z or a-z, the summary
    begins with the same letter in upper case. *)
Theorem clean_summary_shape (raw : pystr) (c : cp) (rest : pystr) :
  nfkc (ftfy_fix_text raw) = c :: rest ->
  exists out, clean_summary (PyStr raw) = PyStr out /\
    (exists d, last out = Some d /\ is_terminal d = true) /\
    (exists d, last (summary_body raw) = Some d /\
       out = strip (if is_terminal d then summary_body raw
                    else summary_body raw ++ [46])) /\
    (is_letter c = true -> head out = Some (ascii_upper c)).
Proof.
  intros E. rewrite clean_summary_PyStr. eexists; split; [done|].
  unfold clean_summary_str. fold (punctuate
    (re_sub contraction_re contraction_repl
       (re_sub sentence_re sentence_repl
          (re_sub space_punct_re space_punct_repl
             (re_sub spaces_re space_repl (nfkc (ftfy_fix_text raw))))))).
  fold (summary_body raw).
  assert (Hne : summary_body raw <> []).
  { apply summary_body_nonempty. by rewrite E. }
  split; [|split].
  - edestruct punctuate_last as (pre & d & -> & Hd); [done|].
    exists d. split; [|done]. rewrite strip_snoc by char_lia. apply last_snoc.
  - unfold punctuate. destruct (last (summary_body raw)) as [d|] eqn:El;
      [|by apply last_None in El].
    exists d. split; [done|]. by destruct (is_terminal d).
  - intros Hc. unfold summary_body. rewrite E. unfold re_sub.
    destruct (sub_spaces_head None c rest) as [r1 ->]; [char_lia|].
    destruct (sub_space_punct_head None c r1) as [r2 ->]; [char_lia|].
    destruct (sub_sentence_head c r2 Hc) as [r3 ->].
    destruct (sub_contraction_head None (ascii_upper c) r3) as [r4 ->].
    destruct (punctuate_head (ascii_upper c) r4) as [r5 ->].
    destruct (strip_cons (ascii_upper c) r5) as [r6 ->]; [|done].
    unfold ascii_upper. destruct (is_lower_az c) eqn:Hl; char_lia.
Qed.

End CleanSummaryShape.

(** ** [split] and [strip] *)

Section Split.
Context {U : UnicodeDB}.

Lemma split_from_lstrip s : split_from [] (lstrip s) = split_from [] s.
Proof.
  induction s as [|c s IH]; [done|]. simpl.
  destruct (is_space c) eqn:E; [done|]. simpl. by rewrite E.
Qed.

Lemma split_from_rstrip cur s : split_from cur (rstrip s) = split_from cur s.
Proof.
  revert cur. induction s as [|c s IH]; intros cur; [done|].
  simpl rstrip. destruct (rstrip s) as [|d r] eqn:E.
  - destruct (is_space c) eqn:Hc; simpl; rewrite Hc.
    + rewrite <- IH. by destruct cur.
    + by rewrite <- IH.
  - simpl. destruct (is_space c); [destruct cur|]; by rewrite <- ?IH.
Qed.

Lemma split_strip s : split (strip s) = split s.
Proof. unfold split, strip. by rewrite split_from_rstrip, split_from_lstrip. Qed.

End Split.

(** ** [generate_summary] *)

Section Summaries.
Context {U : UnicodeDB} (env : Env).

Lemma truthy_PyStr s : truthy (PyStr s) = negb (bool_decide (s = [])).
Proof. done. Qed.

(** Claim C3, as amended.  On a string of fewer than 10 words that is not
    empty once trimmed, the summarizer returns the trimmed text as
    [str.capitalize] renders it, first character in upper case and every
    other character in lower case, and leaves the world as it was: the
    model is not invoked. *)
Theorem generate_summary_short (text : pystr) (w : World) :
  strip text <> [] -> (length (split text) < 10)%nat ->
  generate_summary env (PyStr text) w
  = (Ok (PyStr (capitalize (strip text))), w) /\
  (forallb is_ascii (strip text) = true ->
   capitalize (strip text)
   = match strip text with
     | [] => []
     | c :: s => ascii_upper c :: map ascii_lower s
     end).
Proof.
  intros Hne Hlen. split; [|by unfold capitalize; intros ->].
  unfold generate_summary, generate_summary_try. unfold_m.
  cbn -[strip split capitalize truthy Nat.ltb]. rewrite truthy_PyStr.
  rewrite bool_decide_eq_false_2 by done. cbn -[strip split capitalize Nat.ltb].
  rewrite split_strip. destruct (Nat.ltb_spec (length (split text)) 10); [done|lia].
Qed.

(** The first step of the body, [text = str(text)] on what is not a
    string, when [str] returns. *)
Lemma coerce_Ok content s :
  py_str content = Ok s ->
  match content with PyStr _ => Ok content | _ => PyStr <$> py_str content end
  = Ok (PyStr s).
Proof. destruct content; intros H; rewrite ?H; [by injection H as ->|done..]. Qed.

(** When [str] raises, [text] is still the argument and nothing has been
    done to the world. *)
Lemma generate_summary_try_fail content w e :
  py_str content = Raise e ->
  generate_summary_try env (content, w) = (Raise e, (content, w)).
Proof.
  intros H. unfold generate_summary_try. unfold_m.
  destruct content as [s| |[]|z]; simpl in H; try discriminate.
  unfold py_str in *. destruct (exceeds_str_digits z); [|done].
  by injection H as <-.
Qed.

(** [str] refuses the smallest int of 4301 digits. *)
Lemma py_str_at_limit : py_str (PyInt (10 ^ 4300)) = Raise ValueError.
Proof.
  unfold py_str. replace (exceeds_str_digits (10 ^ 4300)) with true; [done|].
  symmetry. apply Z.leb_le. rewrite Z.abs_eq; [apply Z.le_refl|].
  by apply Z.pow_nonneg.
Qed.

Lemma model_call_Ok content s :
  py_str content = Ok s ->
  model_call content
  = EvSummarize (py "summarize: " ++ take 2048 (strip s)) 150 50 false.
Proof. intros H. unfold model_call, model_input, str_text. by rewrite H. Qed.

(** The body past the coercion, way by way. *)
Lemma generate_summary_try_start content s w :
  py_str content = Ok s ->
  generate_summary_try env (content, w)
  = (let text := PyStr (strip s) in
     if negb (truthy text)
     then (Ok (PyStr (py "No content available to summarize.")), (text, w))
     else if (length (split (strip s)) <? 10)%nat
     then (Ok (PyStr (capitalize (strip s))), (text, w))
     else
       match summarizer env (w ++ [model_call content]) with
       | Ok (Some v :: _) => (Ok (clean_summary v), (text, w ++ [model_call content]))
       | Ok (None :: _) => (Raise KeyError, (text, w ++ [model_call content]))
       | Ok [] => (Raise IndexError, (text, w ++ [model_call content]))
       | Raise e => (Raise e, (text, w ++ [model_call content]))
       end).
Proof.
  intros Hs. rewrite (model_call_Ok _ _ Hs).
  unfold generate_summary_try. unfold_m.
  cbn -[strip split capitalize truthy Nat.ltb]. rewrite (coerce_Ok _ _ Hs).
  cbn -[strip split capitalize truthy Nat.ltb].
  destruct (truthy _); cbn -[strip split capitalize Nat.ltb]; [|done].
  destruct (_ <? _)%nat; cbn -[strip split capitalize]; [done|].
  destruct (summarizer env _) as [[|[v|] l]|e]; done.
Qed.

(** The binding of [text] and the trace when the body raises past the
    coercion: the model has been called, once. *)
Lemma generate_summary_try_raise content s w e st :
  py_str content = Ok s ->
  generate_summary_try env (content, w) = (Raise e, st) ->
  st = (PyStr (strip s), w ++ [model_call content]).
Proof.
  intros Hs. rewrite (generate_summary_try_start _ _ _ Hs). cbn zeta.
  destruct (negb _); [done|]. destruct (_ <? _)%nat; [done|].
  destruct (summarizer env _) as [[|[v|] l]|e']; by intros [= <- <-] || done.
Qed.

(** Claim C9, as amended.  On a content that [str] converts (every string,
    as for the contents [process_news] passes), when the body of
    [generate_summary] raises, the function returns, without raising, the
    post-processed first 300 characters of the content as converted and
    trimmed, followed by three dots; the body has then called the model
    once and [text] is bound to the trimmed text. *)
Theorem generate_summary_fallback content s w e st :
  py_str content = Ok s ->
  generate_summary_try env (content, w) = (Raise e, st) ->
  generate_summary env content w
  = (Ok (clean_summary (PyStr (take 300 (strip s) ++ py "..."))), st.2) /\
  st = (PyStr (strip s), w ++ [model_call content]).
Proof.
  intros Hs H. unfold generate_summary. rewrite H.
  apply (generate_summary_try_raise _ _ _ _ _ Hs) in H as ->. done.
Qed.

End Summaries.

(** ** [clean_text] on any value *)

Section CleanTextTotal.
Context {U : UnicodeDB}.

Lemma clean_text_try_PyStr s :
  clean_text_try (PyStr s) = (Ok (PyStr (clean_text_str s)), PyStr (clean_text_str s)).
Proof. reflexivity. Qed.

(** Claim C8.  [clean_text] is total: it never raises.  When a step of its
    body raises it returns its argument unchanged: only the first step can
    raise, on a value that is not a string, and [text] is still bound to
    the argument then. *)
Theorem clean_text_failure_returns_input (text : pyval) (e : exn) :
  (clean_text_try text).1 = Raise e -> clean_text text = text.
Proof.
  destruct text as [s| |b|z]; [by rewrite clean_text_try_PyStr|done..].
Qed.

End CleanTextTotal.

(** ** [fetch_full_article] *)

Section Fetch.
Context {U : UnicodeDB} (env : Env).

Lemma fetch_first_response url w r1 :
  session_get_oracle env (w ++ [EvGet url HEADERS [] None]) = Ok r1 ->
  status_code r1 <> 403%Z ->
  fetch_full_article env url w
  = (if is_error_status r1 then (CONTENT_NOT_AVAILABLE, None) else page_result r1,
     w ++ [EvGet url HEADERS [] None]).
Proof.
  intros H1 Hs. unfold fetch_full_article, fetch_full_article_try, session_get.
  unfold_m. rewrite H1. cbn -[strip join Z.eqb Z.leb Z.ltb].
  destruct (Z.eqb_spec (status_code r1) 403); [done|].
  fetch_tail.
Qed.

Lemma fetch_failure url w e :
  session_get_oracle env (w ++ [EvGet url HEADERS [] None]) = Raise e ->
  fetch_full_article env url w
  = ((CONTENT_NOT_AVAILABLE, None), w ++ [EvGet url HEADERS [] None]).
Proof.
  intros H1. unfold fetch_full_article, fetch_full_article_try, session_get.
  unfold_m. by rewrite H1.
Qed.

Lemma fetch_after_403 url w r1 :
  session_get_oracle env (w ++ [EvGet url HEADERS [] None]) = Ok r1 ->
  status_code r1 = 403%Z ->
  let w' := w ++ [EvGet url HEADERS [] None; EvSleep 2;
                  EvGet url HEADERS (set_cookies r1) (Some (set_cookies r1))] in
  fetch_full_article env url w
  = (match session_get_oracle env w' with
     | Ok r2 => if is_error_status r2 then (CONTENT_NOT_AVAILABLE, None)
                else page_result r2
     | Raise _ => (CONTENT_NOT_AVAILABLE, None)
     end, w').
Proof.
  intros H1 Hs w'. unfold fetch_full_article, fetch_full_article_try, session_get.
  unfold_m. rewrite H1. cbn -[strip join Z.eqb Z.leb Z.ltb]. rewrite Hs.
  cbn -[strip join Z.leb Z.ltb].
  replace (((w ++ [EvGet url HEADERS [] None]) ++ [EvSleep 2]) ++
            [EvGet url HEADERS (set_cookies r1) (Some (set_cookies r1))])
    with w' by (unfold w'; by rewrite <- !app_assoc).
  destruct (session_get_oracle env w') as [r2|e]; [|done].
  fetch_tail.
Qed.

(** Claim C6.  When the first GET answers 403 the fetcher sleeps 2, issues
    one more GET with the cookies of the session, and nothing else; when
    that second response has status 200 the result is what the extraction
    makes of it. *)
Theorem fetch_retries_once (url : pystr) (w : World) (r1 : response) :
  session_get_oracle env (w ++ [EvGet url HEADERS [] None]) = Ok r1 ->
  status_code r1 = 403%Z ->
  let w' := w ++ [EvGet url HEADERS [] None; EvSleep 2;
                  EvGet url HEADERS (set_cookies r1) (Some (set_cookies r1))] in
  (fetch_full_article env url w).2 = w' /\
  forall r2, session_get_oracle env w' = Ok r2 -> status_code r2 = 200%Z ->
    (fetch_full_article env url w).1 = page_result r2.
Proof.
  intros H1 Hs w'. rewrite (fetch_after_403 url w r1 H1 Hs). fold w'.
  split; [done|]. intros r2 -> H2. unfold is_error_status. by rewrite H2.
Qed.

End Fetch.

(** ** The first loop of [process_news] *)

Section Orchestrator.
Context {U : UnicodeDB} (env : Env).


Lemma dedup_step_inv site st a :
  dedup_inv st -> dedup_inv (dedup_step site st a).
Proof.
  destruct st as [seen filtered]. intros [Hn Hs]. unfold dedup_step.
  fold (resolve site (link a)). case_bool_decide as Hin; [done|].
  split; simpl in *.
  - rewrite map_app. simpl. apply NoDup_app. split; [done|].
    split; [|apply NoDup_singleton].
    intros x Hx ->%list_elem_of_singleton. by apply Hin, Hs.
  - intros x. rewrite map_app, elem_of_app, elem_of_union, Hs. simpl.
    rewrite list_elem_of_singleton, elem_of_singleton. tauto.
Qed.

Lemma dedup_step_seen site st a :
  resolve site (link a) ∈ (dedup_step site st a).1 /\
  forall x, x ∈ st.1 -> x ∈ (dedup_step site st a).1.
Proof.
  destruct st as [seen filtered]. unfold dedup_step.
  fold (resolve site (link a)). case_bool_decide as Hin; simpl; set_solver.
Qed.

Lemma dedup_step_source site st a b :
  b ∈ (dedup_step site st a).2 ->
  b ∈ st.2 \/ b = RawArticle_ (clean_text (headline a)) (resolve site (link a)).
Proof.
  destruct st as [seen filtered]. unfold dedup_step.
  fold (resolve site (link a)). case_bool_decide; simpl; [auto|].
  rewrite elem_of_app, list_elem_of_singleton. tauto.
Qed.

Lemma dedup_foldl site articles st :
  dedup_inv st ->
  let st' := foldl (dedup_step site) st articles in
  dedup_inv st' /\
  (forall x, x ∈ st.1 -> x ∈ st'.1) /\
  (forall a, a ∈ articles -> resolve site (link a) ∈ st'.1) /\
  (forall b, b ∈ st'.2 -> b ∈ st.2 \/
     exists a, a ∈ articles /\
       b = RawArticle_ (clean_text (headline a)) (resolve site (link a))).
Proof.
  revert st. induction articles as [|a l IH]; intros st Hst; simpl.
  - split; [done|]. split; [auto|]. split; [by intros a ?%elem_of_nil|auto].
  - destruct (IH (dedup_step site st a) (dedup_step_inv _ _ _ Hst))
      as (H1 & H2 & H3 & H4).
    destruct (dedup_step_seen site st a) as [H5 H6].
    split; [done|]. split; [auto|]. split.
    + intros a' [->|Ha]%elem_of_cons; auto.
    + intros b [Hb|(a' & Ha' & ->)]%H4.
      * apply dedup_step_source in Hb as [Hb | ->]; [by left|right].
        exists a. split; [left|done].
      * right. exists a'. split; [by right|done].
Qed.

Lemma NoDup_map_eq {A B} (f : A -> B) (l : list A) x y :
  NoDup (map f l) -> x ∈ l -> y ∈ l -> f x = f y -> x = y.
Proof.
  induction l as [|a l IH]; simpl; [by intros _ ?%elem_of_nil|].
  intros [Ha Hl]%NoDup_cons [->|Hx]%elem_of_cons [->|Hy]%elem_of_cons E; auto.
  - destruct Ha. rewrite E. by apply list_elem_of_fmap_2.
  - destruct Ha. rewrite <- E. by apply list_elem_of_fmap_2.
Qed.

Theorem dedup_exact site articles :
  NoDup (map link (dedup site articles)) /\
  (forall a, a ∈ articles ->
     exists b, b ∈ dedup site articles /\ link b = resolve site (link a) /\
       forall b', b' ∈ dedup site articles -> link b' = link b -> b' = b) /\
  (forall b, b ∈ dedup site articles ->
     exists a, a ∈ articles /\
       b = RawArticle_ (clean_text (headline a)) (resolve site (link a))).
Proof.
  unfold dedup.
  destruct (dedup_foldl site articles (∅, [])) as ([Hn Hs] & _ & H3 & H4).
  { split; [constructor|]. intros x. simpl. set_solver. }
  split; [done|]. split.
  - intros a Ha. apply H3, Hs in Ha.
    apply list_elem_of_fmap in Ha as (b & Eb & Hb).
    exists b. repeat split; [done..|].
    intros b' Hb' E. by apply (NoDup_map_eq link _ _ _ Hn).
  - intros b [Hb|Hb]%H4; [by apply elem_of_nil in Hb|done].
Qed.

End Orchestrator.

(** ** The second loop of [process_news] *)

Section Buckets.
Context {U : UnicodeDB} (env : Env).

Lemma appended_nil res : appended res res [].
Proof. intros k. destruct (res !! k); simpl; by rewrite ?app_nil_r. Qed.

Lemma appended_insert res k l a :
  res !! k = Some l -> a_sentiment a = PyStr k ->
  appended res (<[k := l ++ [a]]> res) [a].
Proof.
  intros Hk Ha k'. destruct (decide (k = k')) as [<-|Hne].
  - rewrite lookup_insert_eq, Hk. simpl. rewrite filter_cons_True by done. done.
  - rewrite lookup_insert_ne by done.
    rewrite filter_cons_False by congruence.
    destruct (res !! k'); simpl; by rewrite ?app_nil_r.
Qed.

Lemma appended_trans res1 res2 res3 add1 add2 :
  appended res1 res2 add1 -> appended res2 res3 add2 ->
  appended res1 res3 (add1 ++ add2).
Proof.
  intros H1 H2 k. rewrite H2, H1. destruct (res1 !! k); simpl; [|done].
  by rewrite filter_app, app_assoc.
Qed.

Lemma results_append_spec sentiment a res :
  a_sentiment a = sentiment ->
  let out := results_append sentiment a res in
  (out.1 = Ok () /\ appended res out.2 [a]) \/ (out.1 = Raise KeyError /\ out.2 = res).
Proof.
  intros Ha. unfold results_append. destruct sentiment as [k| | |]; simpl; auto.
  destruct (res !! k) as [l|] eqn:E; simpl; auto.
  left. split; [done|]. by apply appended_insert.
Qed.

Lemma process_article_appends article res w :
  let out := process_article env article (res, w) in
  exists added, appended res out.2.1 added /\
    map a_url added `sublist_of` [link article].
Proof.
  unfold process_article. unfold_m.
  destruct (fetch_full_article env (link article) w) as [[content img] w1].
  cbn -[generate_summary clean_text]. case_bool_decide.
  { exists []. split; [apply appended_nil|]. simpl. apply sublist_nil_l. }
  destruct (analyze_keywords env _) as [resp|e]; cbn -[generate_summary clean_text].
  2:{ exists []. split; [apply appended_nil|]. apply sublist_nil_l. }
  destruct (generate_summary env (PyStr content) _) as [[summary|e] w2];
    cbn -[clean_text].
  2:{ exists []. split; [apply appended_nil|]. apply sublist_nil_l. }
  match goal with
  | |- context [results_append ?s ?a res] =>
      destruct (results_append_spec s a res eq_refl) as [[H1 H2]|[H1 H2]];
      destruct (results_append s a res) as [r res'] eqn:E; simpl in H1, H2;
      subst r; cbn -[clean_text];
      [exists [a]; split; [done|simpl; reflexivity]
      |exists []; subst res'; split; [apply appended_nil|apply sublist_nil_l]]
  end.
Qed.

Lemma for_each_appends filtered res w :
  let out := for_each (process_article env) filtered (res, w) in
  exists added, appended res out.2.1 added /\
    map a_url added `sublist_of` map link filtered.
Proof.
  revert res w. induction filtered as [|article l IH]; intros res w.
  - exists []. split; [apply appended_nil|done].
  - simpl for_each. unfold mbind, M_bind.
    destruct (process_article_appends article res w) as (add1 & H1 & S1).
    destruct (process_article env article (res, w)) as [[[]|e] [res1 w1]];
      simpl in H1.
    + destruct (IH res1 w1) as (add2 & H2 & S2).
      exists (add1 ++ add2). split; [by eapply appended_trans|].
      rewrite map_app. simpl map.
      change (link article :: map link l) with ([link article] ++ map link l).
      by apply sublist_app.
    + exists add1. split; [done|]. simpl.
      etrans; [done|]. apply sublist_skip, sublist_nil_l.
Qed.

Theorem process_site_appends site config res w :
  let out := process_site env (site, config) (res, w) in
  exists added, appended res out.2.1 added /\ NoDup (map a_url added).
Proof.
  unfold process_site. unfold mbind at 1. unfold M_bind.
  set (scr := on_snd _ (res, w)).
  assert (Hscr : scr.2.1 = res).
  { unfold scr, on_snd, call. by destruct (dynamic config). }
  destruct scr as [[articles|e] [res0 w0]]; simpl in Hscr; subst res0.
  - destruct (for_each_appends (dedup site articles) res w0) as (added & H1 & H2).
    exists added. split; [done|].
    eapply sublist_NoDup; [apply dedup_exact|done].
  - exists []. split; [apply appended_nil|constructor].
Qed.

End Buckets.

(** ** The skip decision *)

Section Skip.
Context {U : UnicodeDB} (env : Env).




End Skip.

(** ** [filter_headlines] and the pipeline *)

Section Filter.
Context {U : UnicodeDB}.

Lemma filter_headlines_loop_spec (acc : list pyval) (hs : list pystr) :
  filter_headlines_loop acc (map PyStr hs)
  = Ok (acc ++ map PyStr (List.filter keeps_headline (map clean_text_str hs))).
Proof.
  revert acc. induction hs as [|h hs IH]; intros acc.
  - simpl. by rewrite app_nil_r.
  - cbn [map filter_headlines_loop List.filter]. rewrite clean_text_PyStr.
    unfold keeps_headline at 1. generalize (clean_text_str h). intros c.
    unfold mbind, result_bind, len_split, py_lower.
    destruct (length (split c) <=? 2)%nat; cbn [negb andb]; [apply IH|].
    destruct (contains (py "video") _ || contains (py "advertisement") _);
      cbn [negb]; [apply IH|].
    rewrite IH. cbn [map]. by rewrite <- app_assoc.
Qed.

(** The filter, called on headlines, keeps the cleaned headlines of more
    than two words that mention neither "video" nor "advertisement". *)
(** Property X1.  On a list of string headlines filter_headlines returns, in
    order, exactly the cleaned headlines that have more than two whitespace-
    delimited words and whose lower-case form contains neither 'video' nor
    'advertisement'. *)
Lemma filter_headlines_spec (hs : list pystr) :
  filter_headlines (map PyStr hs)
  = Ok (map PyStr (List.filter keeps_headline (map clean_text_str hs))).
Proof. apply filter_headlines_loop_spec. Qed.

(** Claim C1.  [process_news] never calls [filter_headlines]: a batch whose
    only entry has the two-word headline "Watch video", which the filter
    drops, passes the first loop unchanged, is fetched, classified and
    emitted. *)
Theorem headline_filter_not_applied :
  filter_headlines [headline teaser] = Ok [] /\
  dedup (py "bbc") [teaser] = [teaser] /\
  (process_news teaser_env [(py "bbc", static_site "https://a.example")] []).2
  = [ EvScrapeStatic (py "https://a.example") (py "//h3") (py "//a/@href");
      EvGet (link teaser) HEADERS [] None;
      EvClassify (headline teaser);
      EvNow;
      EvSleep 2 ] /\
  exists a results,
    (process_news teaser_env [(py "bbc", static_site "https://a.example")] []).1
    = Ok results /\
    results !! py "neutral" = Some [a] /\ a_headline a = headline teaser.
Proof.
  split; [vm_compute; reflexivity|]. split; [vm_compute; reflexivity|].
  split; [vm_compute; reflexivity|].
  eexists _, _. split; [vm_compute; reflexivity|].
  split; [vm_compute; reflexivity|]. reflexivity.
Qed.

(** Claim C4, as amended.  On every string [clean_text] returns a string of
    Basic Latin characters only, in which the only whitespace is the
    single space: every whitespace character is U+0020, no two whitespace
    characters are adjacent, and there is none at either end. *)
Theorem clean_text_output_ascii (text : pystr) :
  exists out, clean_text (PyStr text) = PyStr out /\
    Forall (fun c => is_ascii c = true /\ (is_space c = true -> c = 32)) out /\
    single_spaced out = true /\
    (forall pre c d post, out = pre ++ c :: d :: post ->
       is_space c = true -> is_space d = false) /\
    strip out = out.
Proof.
  exists (clean_text_str text). split; [apply clean_text_PyStr|].
  pose proof (clean_text_str_single_spaced text) as Hs.
  split; [|split; [done|split]].
  - apply Forall_and. split; [apply clean_text_str_ascii|].
    by apply single_spaced_Forall.
  - intros pre c d post E. rewrite E in Hs. by apply single_spaced_adjacent with pre post.
  - unfold clean_text_str. apply strip_strip.
Qed.

(** These three runs do not depend on the tables: the text is Basic Latin
    throughout. *)
Lemma clean_text_twice_differs :
  clean_text (clean_text (PyStr (py "a  s"))) <> clean_text (PyStr (py "a  s")).
Proof. vm_compute. discriminate. Qed.

Lemma clean_text_control_character :
  clean_text (PyStr [97; 1; 98]) = PyStr [97; 1; 98].
Proof. vm_compute. reflexivity. Qed.

Lemma generate_summary_acronym (env : Env) (w : World) :
  generate_summary env (PyStr (py "NASA wins")) w
  = (Ok (PyStr (py "Nasa wins")), w).
Proof. vm_compute. reflexivity. Qed.

(** Claim C5.  In one batch the first loop keeps exactly one entry per
    resolved link, so the articles a batch appends to the results have
    pairwise different urls; two batches may still append the same url. *)
Theorem batch_urls_unique (env : Env) (site : pystr) (config : SiteConfig)
    (articles : list RawArticle) (res : Results) (w : World) :
  (NoDup (map link (dedup site articles)) /\
   forall a, a ∈ articles ->
     exists b, b ∈ dedup site articles /\ link b = resolve site (link a) /\
       forall b', b' ∈ dedup site articles -> link b' = link b -> b' = b) /\
  (exists added,
     appended res (process_site env (site, config) (res, w)).2.1 added /\
     NoDup (map a_url added)) /\
  (exists a b results,
     (process_news two_sites_env two_sites []).1 = Ok results /\
     results !! py "neutral" = Some [a; b] /\ a_url a = a_url b).
Proof.
  split; [|split].
  - destruct (dedup_exact site articles) as (H1 & H2 & _). by split.
  - apply process_site_appends.
  - eexists _, _, _. split; [vm_compute; reflexivity|].
    split; [vm_compute; reflexivity|]. reflexivity.
Qed.

End Filter.

(** ** Concrete runs *)

Section Runs.
#[local] Existing Instance latin1_db.

(** Normalizing ["a  s"] gives ["a s"], and normalizing that gives ["a's"]. *)
Lemma clean_text_not_idempotent :
  clean_text (PyStr (py "a  s")) = PyStr (py "a s") /\
  clean_text (clean_text (PyStr (py "a  s"))) = PyStr (py "a's") /\
  clean_text (clean_text (PyStr (py "a  s"))) <> clean_text (PyStr (py "a  s")).
Proof.
  split; [vm_compute; reflexivity|]. split; [vm_compute; reflexivity|].
  vm_compute. discriminate.
Qed.

Lemma clean_text_idempotent_when_settled_witness :
  search_from contraction_re None (clean_text_str (py "Trump s speech")) = false /\
  clean_text (clean_text (PyStr (py "Trump s speech")))
  = clean_text (PyStr (py "Trump s speech")).
Proof.
  split; [vm_compute; reflexivity|].
  apply (clean_text_idempotent_when_settled (py "Trump s speech")).
  vm_compute; reflexivity.
Defined.

(** The control character U+0001 passes through [clean_text]. *)
Lemma clean_text_keeps_control_characters :
  clean_text (PyStr [97; 1; 98]) = PyStr [97; 1; 98] /\
  is_printable_ascii 1 = false.
Proof. split; vm_compute; reflexivity. Qed.

(** ["NASA wins"] comes back as ["Nasa wins"], not with only its first
    letter changed. *)
Lemma short_summary_lowercases :
  generate_summary offline (PyStr (py "NASA wins")) []
  = (Ok (PyStr (py "Nasa wins")), []) /\
  generate_summary offline (PyStr (py "NASA wins")) []
  <> (Ok (PyStr (first_letter_capitalized (strip (py "NASA wins")))), []).
Proof. split; [vm_compute; reflexivity|]. vm_compute. discriminate. Qed.

Lemma generate_summary_short_witness :
  strip (py "Markets fell today") <> [] /\
  (length (split (py "Markets fell today")) < 10)%nat /\
  generate_summary offline (PyStr (py "Markets fell today")) []
  = (Ok (PyStr (py "Markets fell today")), []).
Proof.
  split; [vm_compute; discriminate|]. split; [vm_compute; lia|].
  apply (generate_summary_short offline (py "Markets fell today") []).
  - vm_compute; discriminate.
  - vm_compute; lia.
Defined.

(** ["élan"] starts with an alphabetic, lower-case character and so
    does its post-processed form.  The input made of the one control
    character U+0001 is not empty, the encoding repair deletes the
    character, and the post-processed form is the empty string: it ends
    with no punctuation mark. *)
Lemma clean_summary_misses_shape :
  (clean_summary (PyStr [233; 108; 97; 110]) = PyStr [233; 108; 97; 110; 46] /\
   isalpha 233 = true /\ islower 233 = true) /\
  (ftfy_fix_text [1] = [] /\ clean_summary (PyStr [1]) = PyStr [] /\
   last (@nil cp) = None).
Proof. repeat split; vm_compute; reflexivity. Qed.

Lemma clean_summary_shape_witness :
  nfkc (ftfy_fix_text (py "markets fell")) = 109 :: py "arkets fell" /\
  exists out, clean_summary (PyStr (py "markets fell")) = PyStr out /\
    (exists d, last out = Some d /\ is_terminal d = true) /\
    (exists d, last (summary_body (py "markets fell")) = Some d /\
       out = strip (if is_terminal d then summary_body (py "markets fell")
                    else summary_body (py "markets fell") ++ [46])) /\
    (is_letter 109 = true -> head out = Some (ascii_upper 109)).
Proof.
  split; [vm_compute; reflexivity|].
  apply (clean_summary_shape (py "markets fell") 109 (py "arkets fell")).
  vm_compute; reflexivity.
Defined.

Lemma clean_text_failure_returns_input_witness :
  (clean_text_try PyNone).1 = Raise TypeError /\ clean_text PyNone = PyNone.
Proof.
  split; [reflexivity|].
  apply (clean_text_failure_returns_input PyNone TypeError). reflexivity.
Defined.

(** With a leading space in the content the fallback differs from the
    post-processed truncation of the content as given: the first letter
    is capitalized only once the space is trimmed.  And on the int
    10^4300 the body raises in [str(text)], before [text] is rebound, so
    the handler's [text[:300]] raises in turn: the exception leaves
    [generate_summary]. *)
Lemma fallback_uses_trimmed_text :
  ((generate_summary_try offline (PyStr (32 :: ten_words), [])).1
   = Raise RuntimeError /\
   (generate_summary offline (PyStr (32 :: ten_words)) []).1
   = Ok (PyStr (py "Xx xx xx xx xx xx xx xx xx xx...")) /\
   clean_summary (PyStr (take 300 (32 :: ten_words) ++ py "..."))
   = PyStr (py "xx xx xx xx xx xx xx xx xx xx...")) /\
  (generate_summary_try offline (PyInt (10 ^ 4300), [])
   = (Raise ValueError, (PyInt (10 ^ 4300), [])) /\
   generate_summary offline (PyInt (10 ^ 4300)) [] = (Raise TypeError, [])).
Proof.
  split; [repeat split; vm_compute; reflexivity|].
  pose proof (generate_summary_try_fail offline _ [] _ py_str_at_limit) as H.
  split; [exact H|]. unfold generate_summary. by rewrite H.
Qed.

Lemma generate_summary_fallback_witness :
  py_str (PyStr ten_words) = Ok ten_words /\
  generate_summary_try offline (PyStr ten_words, [])
  = (Raise RuntimeError,
     (PyStr ten_words,
      [EvSummarize (py "summarize: " ++ ten_words) 150 50 false])) /\
  generate_summary offline (PyStr ten_words) []
  = (Ok (clean_summary (PyStr (take 300 (strip ten_words) ++ py "..."))),
     [EvSummarize (py "summarize: " ++ ten_words) 150 50 false]) /\
  (PyStr ten_words, [EvSummarize (py "summarize: " ++ ten_words) 150 50 false])
  = (PyStr (strip ten_words), [] ++ [model_call (PyStr ten_words)]).
Proof.
  split; [reflexivity|]. split; [vm_compute; reflexivity|].
  apply (generate_summary_fallback offline (PyStr ten_words) ten_words []
           RuntimeError
           (PyStr ten_words,
            [EvSummarize (py "summarize: " ++ ten_words) 150 50 false])).
  - reflexivity.
  - vm_compute; reflexivity.
Defined.

Lemma fetch_retries_once_witness :
  session_get_oracle retry_env
    ([] ++ [EvGet (link story) HEADERS [] None]) = Ok forbidden /\
  status_code forbidden = 403%Z /\
  (fetch_full_article retry_env (link story) []).2
  = [EvGet (link story) HEADERS [] None; EvSleep 2;
     EvGet (link story) HEADERS [py "session=1"] (Some [py "session=1"])] /\
  (fetch_full_article retry_env (link story) []).1
  = (py "Shares dropped. Bonds rose.", None).
Proof.
  split; [reflexivity|]. split; [reflexivity|].
  destruct (fetch_retries_once retry_env (link story) [] forbidden
              eq_refl eq_refl) as [H1 H2].
  split; [exact H1|]. exact (H2 article_page eq_refl eq_refl).
Defined.


End Runs.

(** * Further properties *)

(** ** [filter_headlines] on values that are not strings *)

Section FilterErrors.
Context {U : UnicodeDB}.

Lemma clean_text_not_str v : is_str v = false -> clean_text v = v.
Proof. by destruct v. Qed.

Lemma filter_headlines_loop_raises acc hs :
  existsb (fun h => negb (is_str h)) hs = true ->
  filter_headlines_loop acc hs = Raise AttributeError.
Proof.
  revert acc. induction hs as [|h hs IH]; intros acc; [done|].
  cbn [existsb filter_headlines_loop]. destruct h as [s| |b|z]; try done.
  cbn [is_str negb orb]. intros H. rewrite clean_text_PyStr.
  unfold mbind, result_bind, len_split, py_lower.
  destruct (_ <=? _)%nat; [by apply IH|].
  destruct (_ || _); by apply IH.
Qed.

(** Property X2.  filter_headlines has no try/except: if any headline is not
    a string (clean_text hands it back unchanged and .split() fails), the
    whole call raises AttributeError, whatever the other headlines are. *)
Theorem filter_headlines_rejects_non_strings (hs : list pyval) :
  existsb (fun h => negb (is_str h)) hs = true ->
  filter_headlines hs = Raise AttributeError.
Proof. apply filter_headlines_loop_raises. Qed.

End FilterErrors.

(** ** [fix_guardian_link] *)

Section Guardian.

Lemma starts_with_app p s : starts_with p (p ++ s) = true.
Proof. induction p as [|c p IH]; simpl; [done|]. by rewrite N.eqb_refl. Qed.

(** Property X3.  fix_guardian_link always returns a link that starts with
    'http', and applying it twice gives the same as applying it once. *)
Theorem fix_guardian_link_absolute (link : pystr) :
  starts_with (py "http") (fix_guardian_link link) = true /\
  fix_guardian_link (fix_guardian_link link) = fix_guardian_link link.
Proof.
  assert (H : starts_with (py "http") (fix_guardian_link link) = true).
  { unfold fix_guardian_link.
    destruct (starts_with (py "http") link) eqn:E; simpl; [done|].
    vm_compute. reflexivity. }
  split; [done|]. unfold fix_guardian_link at 1. by rewrite H.
Qed.

Lemma before_first_app sep p f :
  Forall (fun c => c <> sep) p -> before_first sep (p ++ sep :: f) = p.
Proof.
  induction 1 as [|c p Hc Hp IH]; simpl; [by rewrite N.eqb_refl|].
  destruct (N.eqb_spec c sep); [done|]. by rewrite IH.
Qed.

Lemma starts_with_before sep q p f :
  Forall (fun c => c <> sep) q ->
  starts_with q (p ++ sep :: f) = starts_with q p.
Proof.
  intros Hq. revert p. induction Hq as [|a q Ha Hq IH]; intros p; [done|].
  destruct p as [|c p]; simpl.
  - by destruct (N.eqb_spec a sep).
  - by rewrite IH.
Qed.

(** Property X4.  For a relative link (not starting with 'http') whose path
    has no '#', fix_guardian_link returns 'https://www.theguardian.com' +
    path both for the path alone and for path + '#' + any fragment: links
    that differ only in the fragment resolve to the same URL. *)
Theorem fix_guardian_link_drops_fragment (path fragment : pystr) :
  starts_with (py "http") path = false ->
  Forall (fun c => c <> 35) path ->
  fix_guardian_link (path ++ 35 :: fragment)
  = py "https://www.theguardian.com" ++ path /\
  fix_guardian_link path = py "https://www.theguardian.com" ++ path.
Proof.
  intros Hrel Hp. unfold fix_guardian_link.
  rewrite starts_with_before, Hrel by (repeat constructor; done). simpl negb. cbv iota.
  rewrite before_first_app by done. split; [done|]. f_equal.
  clear Hrel. induction Hp as [|c p Hc Hp IH]; simpl; [done|].
  destruct (N.eqb_spec c 35); [done|]. by rewrite IH.
Qed.

End Guardian.

(** ** The order the first loop keeps *)

Section DedupOrder.
Context {U : UnicodeDB}.

Lemma dedup_step_eq site seen acc a :
  dedup_step site (seen, acc) a
  = if bool_decide (resolve site (link a) ∈ seen) then (seen, acc)
    else ({[resolve site (link a)]} ∪ seen, acc ++ [cleaned_entry site a]).
Proof. reflexivity. Qed.

Lemma dedup_step_fresh site a :
  dedup_step site (∅, []) a = ({[resolve site (link a)]} ∪ ∅, [cleaned_entry site a]).
Proof.
  unfold dedup_step. fold (resolve site (link a)).
  by rewrite bool_decide_eq_false_2 by apply not_elem_of_empty.
Qed.

Lemma dedup_from site seen acc l :
  (foldl (dedup_step site) (seen, acc) l).2
  = acc ++ filter (fun b => link b ∉ seen) (dedup site l).
Proof.
  unfold dedup. revert seen acc. induction l as [|a l IH]; intros seen acc.
  - simpl. by rewrite app_nil_r.
  - cbn [foldl]. rewrite dedup_step_fresh.
    rewrite (IH _ [cleaned_entry site a]).
    rewrite dedup_step_eq.
    destruct (bool_decide_reflect (resolve site (link a) ∈ seen)) as [Hin|Hin];
      rewrite IH.
    + rewrite filter_app, filter_cons_False, filter_nil by (simpl; tauto).
      rewrite list_filter_filter. simpl. f_equal. apply list_filter_iff.
      intros b. rewrite union_empty_r_L, not_elem_of_singleton.
      split; [|tauto]. intros Hb. split; [done|]. intros E. apply Hb. by rewrite E.
    + rewrite filter_app, filter_cons_True, filter_nil by done.
      rewrite <- app_assoc. simpl.
      rewrite list_filter_filter. do 2 f_equal. apply list_filter_iff.
      intros b. rewrite union_empty_r_L, not_elem_of_union. tauto.
Qed.

Lemma dedup_cons (site : pystr) (a : RawArticle) (l : list RawArticle) :
  dedup site (a :: l)
  = cleaned_entry site a
    :: filter (fun b => link b <> resolve site (link a)) (dedup site l).
Proof.
  unfold dedup at 1. cbn [foldl]. rewrite dedup_step_fresh, dedup_from.
  simpl. f_equal. apply list_filter_iff. intros b.
  by rewrite union_empty_r_L, not_elem_of_singleton.
Qed.

Lemma dedup_links_sublist site l :
  map link (dedup site l) `sublist_of` map (fun a => resolve site (link a)) l.
Proof.
  induction l as [|a l IH]; [done|]. rewrite dedup_cons. simpl.
  apply sublist_skip. etrans; [|exact IH].
  apply (fmap_sublist link), sublist_filter.
Qed.

(** Property X6.  When the resolved links of a batch are pairwise different,
    the deduplication loop drops nothing: it returns every entry, in order,
    with its headline cleaned and its link resolved. *)
Theorem dedup_keeps_distinct_links (site : pystr) (l : list RawArticle) :
  NoDup (map (fun a => resolve site (link a)) l) ->
  dedup site l = map (cleaned_entry site) l.
Proof.
  induction l as [|a l IH]; [done|]. simpl. intros [Ha Hl]%NoDup_cons.
  rewrite dedup_cons, (IH Hl). f_equal.
  clear IH Hl. induction l as [|b l IH]; [done|]. simpl in *.
  apply not_elem_of_cons in Ha as [Hne Ha].
  rewrite filter_cons_True by (simpl; congruence). f_equal. by apply IH.
Qed.

(** Property X5.  The deduplication loop of process_news composes over
    concatenation: the entries kept from l1 ++ l2 are those kept from l1,
    followed by those kept from l2 whose link is not among the links kept
    from l1 (earlier entries win, order is preserved). *)
Theorem dedup_app (site : pystr) (l1 l2 : list RawArticle) :
  dedup site (l1 ++ l2)
  = dedup site l1
    ++ filter (fun b => link b ∉ map link (dedup site l1)) (dedup site l2).
Proof.
  unfold dedup at 1. rewrite foldl_app.
  destruct (dedup_foldl site l1 (∅, [])) as ([_ Hs] & _).
  { split; [constructor|]. intros x. simpl.
    split; [by intros ?%elem_of_empty|by intros ?%elem_of_nil]. }
  fold (dedup site l1) in Hs.
  destruct (foldl (dedup_step site) (∅, []) l1) as [seen1 acc1] eqn:E.
  assert (Hd : dedup site l1 = acc1) by (unfold dedup; by rewrite E).
  rewrite dedup_from, Hd. f_equal. apply list_filter_iff.
  intros b. simpl in Hs. rewrite Hd in Hs. by rewrite Hs.
Qed.

End DedupOrder.

(** ** Every way through [fetch_full_article] *)

Section FetchMore.
Context {U : UnicodeDB} (env : Env).

Lemma page_result_content r :
  (page_result r).1 <> [] /\ strip (page_result r).1 = (page_result r).1.
Proof.
  unfold page_result. destruct (document r) as [t|e]; simpl.
  - destruct (strip (join (py " ") (p_text t))) as [|c s] eqn:E.
    + split; [done|]. vm_compute. reflexivity.
    + split; [done|]. rewrite <- E. apply strip_strip.
  - split; [done|]. vm_compute. reflexivity.
Qed.

(** Every way through [fetch_full_article]. *)
Lemma fetch_cases url w :
  let first_get := EvGet url HEADERS [] None in
  ((fetch_full_article env url w).1 = (CONTENT_NOT_AVAILABLE, None) \/
   exists r, (fetch_full_article env url w).1 = page_result r) /\
  ((fetch_full_article env url w).2 = w ++ [first_get] \/
   exists jar, (fetch_full_article env url w).2
     = w ++ [first_get; EvSleep 2; EvGet url HEADERS jar (Some jar)]).
Proof.
  intros first_get.
  destruct (session_get_oracle env (w ++ [first_get])) as [r1|e] eqn:E1.
  - destruct (Z.eq_dec (status_code r1) 403) as [Hs|Hs].
    + rewrite (fetch_after_403 env url w r1 E1 Hs). simpl. split; [|right; eexists; reflexivity].
      match goal with
      | |- context [session_get_oracle env ?h] =>
          destruct (session_get_oracle env h) as [r2|e]; [|by left]
      end.
      destruct (is_error_status r2); eauto.
    + rewrite (fetch_first_response env url w r1 E1 Hs). simpl.
      split; [|by left]. destruct (is_error_status r1); eauto.
  - rewrite (fetch_failure env url w e E1). simpl. split; by left.
Qed.

(** Property X7.  Whatever the network answers, the content
    fetch_full_article returns is never the empty string and has no leading
    or trailing whitespace (it is the sentinel or the trimmed paragraph
    text). *)
Theorem fetch_content_never_empty (url : pystr) (w : World) :
  (fetch_full_article env url w).1.1 <> [] /\
  strip (fetch_full_article env url w).1.1 = (fetch_full_article env url w).1.1.
Proof.
  destruct (fetch_cases url w) as [[H|[r H]] _]; rewrite H.
  - split; [done|]. vm_compute. reflexivity.
  - apply page_result_content.
Qed.

(** Property X8.  fetch_full_article makes either one GET, or a GET, a
    2-second sleep and one more GET carrying the session cookies; always to
    the given url with the fixed headers, never a third request. *)
Theorem fetch_at_most_two_requests (url : pystr) (w : World) :
  let first_get := EvGet url HEADERS [] None in
  (fetch_full_article env url w).2 = w ++ [first_get] \/
  exists jar, (fetch_full_article env url w).2
    = w ++ [first_get; EvSleep 2; EvGet url HEADERS jar (Some jar)].
Proof. apply fetch_cases. Qed.

(** Property X9.  If the first GET answers 403 and the retry raises or
    answers with an error status (400-599, a second 403 included),
    fetch_full_article returns ('Content not available', None) and makes no
    further request. *)
Theorem fetch_retry_failure (url : pystr) (w : World) (r1 : response) :
  session_get_oracle env (w ++ [EvGet url HEADERS [] None]) = Ok r1 ->
  status_code r1 = 403%Z ->
  let w' := w ++ [EvGet url HEADERS [] None; EvSleep 2;
                  EvGet url HEADERS (set_cookies r1) (Some (set_cookies r1))] in
  (match session_get_oracle env w' with
   | Ok r2 => is_error_status r2 = true
   | Raise _ => True
   end) ->
  fetch_full_article env url w = ((CONTENT_NOT_AVAILABLE, None), w').
Proof.
  intros H1 Hs w' H2. rewrite (fetch_after_403 env url w r1 H1 Hs). fold w'.
  destruct (session_get_oracle env w') as [r2|e]; [by rewrite H2|done].
Qed.

(** Property X10.  For a 200 page whose paragraph text is empty after
    trimming but which has an og:image, fetch_full_article returns the
    sentinel content together with that image URL (the first og:image), not
    None. *)
Theorem fetch_empty_page_keeps_image (url : pystr) (w : World) (r : response)
    (t : tree) (img : pystr) (others : list pystr) :
  session_get_oracle env (w ++ [EvGet url HEADERS [] None]) = Ok r ->
  status_code r = 200%Z -> document r = Ok t ->
  strip (join (py " ") (p_text t)) = [] ->
  og_image_content t = Ok (img :: others) ->
  fetch_full_article env url w
  = ((CONTENT_NOT_AVAILABLE, Some img), w ++ [EvGet url HEADERS [] None]).
Proof.
  intros H1 Hs Hd Hp Hi.
  rewrite (fetch_first_response env url w r H1) by lia.
  unfold is_error_status, page_result, extract_image.
  by rewrite Hs, Hd, Hi; simpl; rewrite Hp.
Qed.

End FetchMore.

(** ** Every way through [generate_summary] *)

Section SummaryMore.
Context {U : UnicodeDB} (env : Env).


Lemma py_str_limit (content : pyval) :
  is_ok (py_str content) = false <->
  exists z, content = PyInt z /\ (10 ^ INT_MAX_STR_DIGITS <= Z.abs z)%Z.
Proof.
  split.
  - destruct content as [s| |[]|z]; try done. unfold py_str.
    destruct (exceeds_str_digits z) eqn:E; [|done]. intros _. exists z.
    split; [done|]. unfold exceeds_str_digits in E. by apply Z.leb_le.
  - intros (z & -> & H). unfold py_str.
    replace (exceeds_str_digits z) with true; [done|].
    symmetry. by apply Z.leb_le.
Qed.

(** Property X11.  generate_summary raises on one kind of input only, an
    int of more than 4300 digits: str(text) fails, text is still the int
    and the handler's text[:300] raises TypeError, with the model not
    called.  On every other value (any string, None, a bool, a shorter
    int) it returns, whatever the model does, and it calls the model at
    most once: the trace is unchanged or extended by exactly one
    summarizer call on 'summarize: ' + the first 2048 characters of the
    trimmed text with max_length 150, min_length 50, do_sample False. *)
Theorem generate_summary_raises_only_past_str_limit (content : pyval) (w : World) :
  (is_ok (py_str content) = false <->
   exists z, content = PyInt z /\ (10 ^ INT_MAX_STR_DIGITS <= Z.abs z)%Z) /\
  (if is_ok (py_str content)
   then exists v,
     generate_summary env content w = (Ok v, w) \/
     generate_summary env content w = (Ok v, w ++ [model_call content])
   else generate_summary env content w = (Raise TypeError, w)).
Proof.
  split; [apply py_str_limit|].
  unfold generate_summary. destruct (py_str content) as [s|e0] eqn:Hs; simpl.
  - rewrite (generate_summary_try_start _ _ _ _ Hs).
    cbn zeta. destruct (negb _); [eauto|]. destruct (_ <? _)%nat; [eauto|].
    destruct (summarizer env _) as [[|[v|] l]|e]; simpl; eauto.
  - rewrite (generate_summary_try_fail _ _ _ _ Hs).
    destruct content as [s| |[]|z]; done.
Qed.

(** Property X12.  If the input, coerced to a string, is empty or only
    whitespace, generate_summary returns 'No content available to
    summarize.' without calling the model. *)
Theorem generate_summary_blank (content : pyval) (s : pystr) (w : World) :
  py_str content = Ok s -> strip s = [] ->
  generate_summary env content w
  = (Ok (PyStr (py "No content available to summarize.")), w).
Proof.
  intros Hs H. unfold generate_summary.
  rewrite (generate_summary_try_start _ _ _ _ Hs).
  cbn zeta. by rewrite H.
Qed.

Lemma split_nil_of_strip s : strip s = [] -> split s = [].
Proof. intros H. by rewrite <- split_strip, H. Qed.

(** Property X13.  On a string of at least 10 words generate_summary calls
    the model exactly once and returns clean_summary of the first item's
    summary_text; if the model raises, returns an empty list or an item
    without summary_text, it returns clean_summary of the first 300
    characters of the trimmed text plus '...'. The model input is at most
    2059 characters long. *)
Theorem generate_summary_long (text : pystr) (w : World) :
  (10 <= length (split text))%nat ->
  generate_summary env (PyStr text) w
  = (Ok (match summarizer env (w ++ [model_call (PyStr text)]) with
         | Ok (Some v :: _) => clean_summary v
         | _ => clean_summary (PyStr (take 300 (strip text) ++ py "..."))
         end), w ++ [model_call (PyStr text)]) /\
  (length (model_input (PyStr text)) <= 2059)%nat.
Proof.
  intros Hlen. split.
  - unfold generate_summary.
    rewrite (generate_summary_try_start _ (PyStr text) text) by done.
    cbn zeta. rewrite split_strip.
    destruct (strip text) as [|c s] eqn:E.
    { apply split_nil_of_strip in E. rewrite E in Hlen. simpl in Hlen. lia. }
    rewrite <- E. rewrite truthy_PyStr, bool_decide_eq_false_2 by (by rewrite E).
    cbn [negb]. destruct (Nat.ltb_spec (length (split text)) 10); [lia|].
    destruct (summarizer env _) as [[|[v|] l]|e]; done.
  - unfold model_input, str_text. cbn [py_str].
    rewrite length_app, length_take.
    change (length (py "summarize: ")) with 11%nat. lia.
Qed.

End SummaryMore.

(** ** Edge cases of the cleaners *)

Section SummaryCleaning.
Context {U : UnicodeDB}.

Lemma clean_summary_try_PyStr s :
  (clean_summary_try (PyStr s)).1 = Ok (PyStr (clean_summary_str s)).
Proof.
  unfold clean_summary_str, clean_summary_try.
  unfold mbind, M_bind, mret, M_ret, assign, get, lift.
  cbn -[re_sub strip nfkc last].
  set (t := re_sub contraction_re contraction_repl _).
  destruct t as [|c t'] eqn:E; [done|].
  cbn -[re_sub strip nfkc last].
  destruct (last (c :: t')) as [d|] eqn:El; [|by apply last_None in El].
  cbn -[re_sub strip nfkc last]. destruct (is_terminal d); done.
Qed.

(** Property X14.  clean_summary never raises: when a step of its body
    raises (the input is not a string, so ftfy.fix_text fails) it returns
    its argument unchanged. *)
Theorem clean_summary_failure_returns_input (text : pyval) (e : exn) :
  (clean_summary_try text).1 = Raise e -> clean_summary text = text.
Proof.
  destruct text as [s| |b|z]; [by rewrite clean_summary_try_PyStr|done..].
Qed.

(** Property X15.  When the text left by ftfy.fix_text and NFKC
    normalization is empty, clean_summary returns the empty string: no full
    stop is appended to empty text. *)
Theorem clean_summary_empty (raw : pystr) :
  nfkc (ftfy_fix_text raw) = [] -> clean_summary (PyStr raw) = PyStr [].
Proof.
  intros H. rewrite clean_summary_PyStr. unfold clean_summary_str.
  by rewrite H.
Qed.

End SummaryCleaning.

Section CleanTextMore.
Context {U : UnicodeDB}.

Lemma match_contraction_head prev c s :
  is_letter c = false -> match_at contraction_re prev (c :: s) = None.
Proof.
  intros H. unfold match_at, contraction_re. cbn [run m_prev m_rest m_groups].
  destruct (word_boundary _ _); [|done]. by rewrite plus_loop_reject.
Qed.

Lemma search_contraction_no_letter prev s :
  Forall (fun c => is_letter c = false) s ->
  search_from contraction_re prev s = false.
Proof.
  intros H. revert prev. induction H as [|c s Hc Hs IH]; intros prev; [done|].
  simpl. rewrite match_contraction_head by done. rewrite IH.
  by rewrite bool_decide_eq_false_2 by (by intros [? ?]).
Qed.

Lemma lstrip_all_space s : Forall (fun c => is_space c = true) s -> lstrip s = [].
Proof. induction 1 as [|c s Hc Hs IH]; simpl; [done|]. by rewrite Hc. Qed.

(** Property X16.  clean_text maps every string made only of ASCII
    whitespace (the empty string included) to the empty string. *)
Theorem clean_text_blank (s : pystr) :
  Forall (fun c => is_ascii c = true /\ is_space c = true) s ->
  clean_text (PyStr s) = PyStr [].
Proof.
  intros H. apply Forall_and in H as [Ha Hs].
  rewrite clean_text_PyStr. f_equal. unfold clean_text_str.
  rewrite (nfkc_ascii _ Ha), (utf8_roundtrip_ascii _ Ha). unfold re_sub.
  rewrite (sub_from_no_match contraction_re).
  2:{ apply search_contraction_no_letter.
      eapply Forall_impl; [exact Hs|]. intros c Hc. simpl in Hc.
      destruct (is_letter c) eqn:E; [|done]. exfalso. char_lia. }
  rewrite (sub_non_ascii_id _ _ Ha).
  destruct Hs as [|c s Hc Hs]; [done|].
  rewrite sub_spaces_cons, Hc, (lstrip_all_space _ Hs). done.
Qed.

(** A [+] over a whole run of the class, when what follows matches. *)
Lemma plus_loop_run p gs k w rest st :
  Forall (fun c => p c = true) w -> w <> [] ->
  match rest with c :: _ => p c = false | [] => True end ->
  k (MState (last w) rest gs) = Some st ->
  plus_loop p gs k (w ++ rest) = Some st.
Proof.
  intros Hw. revert st. induction Hw as [|a w Ha Hw IH]; intros st Hne Hr Hk; [done|].
  simpl. rewrite Ha. destruct w as [|b w].
  - simpl in *. destruct rest as [|c rest]; simpl; [done|]. by rewrite Hr.
  - rewrite (IH st); [done|done|done|]. by rewrite last_cons_cons in Hk.
Qed.

Lemma sub_from_whole r repl prev s gs :
  s <> [] -> match_at r prev s = Some (gs, length s) ->
  sub_from r repl prev 0 s = repl gs.
Proof.
  destruct s as [|c s]; [done|]. intros _ H. simpl sub_from. rewrite H.
  simpl length. cbv iota beta.
  rewrite (sub_from_skip r repl (Some c) (length s) s), drop_all.
  apply app_nil_r.
Qed.

Lemma no_space_single_spaced s :
  Forall (fun c => is_space c = false) s -> single_spaced s = true.
Proof. induction 1 as [|c s Hc Hs IH]; simpl; [done|]. by rewrite Hc, IH. Qed.

Lemma no_space_strip s :
  Forall (fun c => is_space c = false) s -> strip s = s.
Proof.
  intros H. apply strip_id.
  - by destruct H.
  - unfold last_space. destruct (last s) as [c|] eqn:E; [|done].
    apply last_Some_elem_of in E. by rewrite Forall_forall in H; apply H.
Qed.

(** Property X17.  clean_text rejoins a word of ASCII letters followed by
    one ASCII whitespace character and a final s, m, t, d or l with an
    apostrophe: word + ws + c becomes word + ''' + c (e.g. 'Trump s' becomes
    'Trump's'). *)
Theorem clean_text_restores_apostrophe (w : pystr) (sp c : cp) :
  w <> [] -> Forall (fun a => is_letter a = true) w ->
  is_ascii sp = true -> is_space sp = true -> is_smtdl c = true ->
  clean_text (PyStr (w ++ [sp; c])) = PyStr (w ++ [39; c]).
Proof.
  intros Hne Hw Hsa Hsp Hc.
  assert (Hwa : Forall (fun a => is_ascii a = true) w).
  { eapply Forall_impl; [exact Hw|]. intros a Ha. simpl in *. char_lia. }
  assert (Hca : is_ascii c = true) by char_lia.
  assert (Hin : Forall (fun a => is_ascii a = true) (w ++ [sp; c])).
  { apply Forall_app. split; [done|]. by repeat constructor. }
  assert (Hout : Forall (fun a => is_ascii a = true) (w ++ [39; c])).
  { apply Forall_app. split; [done|]. by repeat constructor. }
  assert (Hns : Forall (fun a => is_space a = false) (w ++ [39; c])).
  { apply Forall_app. split.
    - eapply Forall_impl; [exact Hw|]. intros a Ha. simpl in *. char_lia.
    - repeat constructor; char_lia. }
  assert (Hb : word_boundary None (head (w ++ [sp; c])) = true).
  { destruct w as [|a w']; [done|]. apply Forall_cons in Hw as [Ha _].
    cbn [head app]. unfold word_boundary, word_at, is_word, isalnum.
    replace (is_ascii a) with true by char_lia. by rewrite Ha. }
  assert (Hb2 : word_boundary (Some c) None = true).
  { unfold word_boundary, word_at, is_word, isalnum.
    rewrite Hca. replace (is_letter c) with true by char_lia. done. }
  assert (Hm : match_at contraction_re None (w ++ [sp; c])
               = Some ([w; [c]], length (w ++ [sp; c]))).
  { unfold match_at, contraction_re. cbn [run m_prev m_rest m_groups].
    rewrite Hb.
    match goal with
    | |- context [plus_loop _ _ ?K _] =>
        assert (HK : K (MState (last w) [sp; c] [])
                     = Some (MState (Some c) [] [w; [c]]))
    end.
    { cbn [m_prev m_rest m_groups run]. rewrite Hsp.
      cbn [m_prev m_rest m_groups]. rewrite Hc.
      cbn [m_prev m_rest m_groups head]. rewrite Hb2.
      do 2 f_equal. cbn [app].
      rewrite length_app, Nat.add_sub. by rewrite take_app_length. }
    rewrite (plus_loop_run is_letter [] _ w [sp; c] _ Hw Hne
               ltac:(simpl; char_lia) HK).
    cbn [m_rest m_groups length]. by rewrite Nat.sub_0_r. }
  rewrite clean_text_PyStr. f_equal. unfold clean_text_str.
  rewrite (nfkc_ascii _ Hin), (utf8_roundtrip_ascii _ Hin). unfold re_sub.
  assert (Hne2 : w ++ [sp; c] <> []) by (by destruct w).
  rewrite (sub_from_whole _ contraction_repl _ _ _ Hne2 Hm).
  change (contraction_repl [w; [c]]) with (w ++ [39; c]).
  rewrite (sub_non_ascii_id _ _ Hout).
  rewrite (sub_spaces_id _ _ (no_space_single_spaced _ Hns)).
  by apply no_space_strip.
Qed.

End CleanTextMore.

(** ** What [process_news] emits and when it stops *)

Section NewsMore.
Context {U : UnicodeDB} (env : Env).

Lemma process_site_start site config res w :
  process_site env (site, config) (res, w)
  = match scrape_oracle env config (w ++ [scrape_event config]) with
    | Ok articles =>
        for_each (process_article env) (dedup site articles)
                 (res, w ++ [scrape_event config])
    | Raise e => (Raise e, (res, w ++ [scrape_event config]))
    end.
Proof.
  unfold process_site, scrape_oracle, scrape_event. unfold_m.
  by destruct (dynamic config).
Qed.

(** Property X18.  process_news does not catch scraper errors: if the scrape
    call of the first site raises, process_news raises the same exception
    right after that call; no other site is contacted and no results are
    written. *)
Theorem scrape_failure_ends_run (site : pystr) (config : SiteConfig)
    (others : list (pystr * SiteConfig)) (w : World) (e : exn) :
  scrape_oracle env config (w ++ [scrape_event config]) = Raise e ->
  process_news env ((site, config) :: others) w
  = (Raise e, w ++ [scrape_event config]).
Proof.
  intros H. unfold process_news. cbn [for_each]. unfold mbind, M_bind.
  by rewrite process_site_start, H.
Qed.




End NewsMore.

(** ** Routing and provenance *)

Section Routing.
Context {U : UnicodeDB} (env : Env).

Lemma for_each_sites_appends sites res w :
  exists added,
    appended res (for_each (process_site env) sites (res, w)).2.1 added.
Proof.
  revert res w. induction sites as [|[site config] sites IH]; intros res w.
  - exists []. apply appended_nil.
  - cbn [for_each]. unfold mbind, M_bind.
    destruct (process_site_appends env site config res w) as (add1 & H1 & _).
    destruct (process_site env (site, config) (res, w)) as [[[]|e] [res1 w1]];
      simpl in H1; [|by exists add1].
    destruct (IH res1 w1) as (add2 & H2).
    exists (add1 ++ add2). by eapply appended_trans.
Qed.

(** Property X21.  When process_news completes, results has exactly the keys
    positive, neutral and negative, and there is one sequence of emitted
    articles of which each bucket is exactly the sub-sequence with that
    sentiment: every article sits in the bucket named by its sentiment field
    and in no other. *)
Theorem results_routed_by_sentiment (config : list (pystr * SiteConfig))
    (w : World) :
  match (process_news env config w).1 with
  | Ok results =>
      exists emitted, forall k,
        results !! k
        = if bool_decide (k ∈ SENTIMENTS)
          then Some (filter (fun a => a_sentiment a = PyStr k) emitted)
          else None
  | Raise _ => True
  end.
Proof.
  unfold process_news.
  destruct (for_each_sites_appends config empty_results w) as [added H].
  destruct (for_each _ _ _) as [[[]|e] [res w']]; [|done].
  simpl in *. exists added. intros k. rewrite H.
  unfold empty_results, SENTIMENTS.
  destruct (decide (k = py "positive")) as [->|H1]; [by rewrite lookup_insert_eq|].
  rewrite lookup_insert_ne by done.
  destruct (decide (k = py "neutral")) as [->|H2]; [by rewrite lookup_insert_eq|].
  rewrite lookup_insert_ne by done.
  destruct (decide (k = py "negative")) as [->|H3]; [by rewrite lookup_insert_eq|].
  rewrite lookup_insert_ne, lookup_empty by done.
  rewrite bool_decide_eq_false_2; [done|].
  rewrite !elem_of_cons, elem_of_nil. tauto.
Qed.

Lemma process_article_source article res w :
  exists added,
    appended res (process_article env article (res, w)).2.1 added /\
    Forall (emitted_from article) added.
Proof.
  unfold process_article. unfold_m.
  destruct (fetch_full_article env (link article) w) as [[content img] w1].
  cbn -[generate_summary clean_text]. case_bool_decide.
  { exists []. split; [apply appended_nil|done]. }
  destruct (analyze_keywords env _) as [resp|e]; cbn -[generate_summary clean_text].
  2:{ exists []. split; [apply appended_nil|done]. }
  destruct (generate_summary env (PyStr content) _) as [[summary|e] w2];
    cbn -[clean_text].
  2:{ exists []. split; [apply appended_nil|done]. }
  match goal with
  | |- context [results_append ?s ?a res] =>
      destruct (results_append_spec s a res eq_refl) as [[H1 H2]|[H1 H2]];
      destruct (results_append s a res) as [r res'] eqn:E; simpl in H1, H2;
      subst r; cbn -[clean_text];
      [exists [a]; split; [done|by repeat constructor]
      |exists []; subst res'; split; [apply appended_nil|done]]
  end.
Qed.

Lemma for_each_source filtered res w :
  exists added,
    appended res (for_each (process_article env) filtered (res, w)).2.1 added /\
    Forall (fun a => exists b, b ∈ filtered /\ emitted_from b a) added.
Proof.
  revert res w. induction filtered as [|article l IH]; intros res w.
  - exists []. split; [apply appended_nil|done].
  - cbn [for_each]. unfold mbind, M_bind.
    destruct (process_article_source article res w) as (add1 & H1 & S1).
    assert (S1' : Forall (fun a => exists b, b ∈ article :: l /\ emitted_from b a) add1).
    { eapply Forall_impl; [exact S1|]. intros a Ha. exists article.
      split; [left|done]. }
    destruct (process_article env article (res, w)) as [[[]|e] [res1 w1]];
      simpl in H1; [|by exists add1].
    destruct (IH res1 w1) as (add2 & H2 & S2).
    exists (add1 ++ add2). split; [by eapply appended_trans|].
    apply Forall_app. split; [done|].
    eapply Forall_impl; [exact S2|]. intros a (b & Hb & Ha).
    exists b. split; [by right|done].
Qed.

(** Property X22.  Every article a site batch appends comes from a scraped
    entry of that batch: its url is that entry's resolved link and its
    headline is that entry's headline passed through clean_text twice (once
    in the deduplication loop, once in the article loop). *)
Theorem emitted_articles_come_from_batch (site : pystr) (config : SiteConfig)
    (res : Results) (w : World) (articles : list RawArticle) :
  scrape_oracle env config (w ++ [scrape_event config]) = Ok articles ->
  exists added,
    appended res (process_site env (site, config) (res, w)).2.1 added /\
    Forall (fun a => exists raw, raw ∈ articles /\
              a_url a = resolve site (link raw) /\
              a_headline a = clean_text (clean_text (headline raw))) added.
Proof.
  intros H. rewrite process_site_start, H.
  destruct (for_each_source (dedup site articles) res (w ++ [scrape_event config]))
    as (added & H1 & H2).
  exists added. split; [done|]. eapply Forall_impl; [exact H2|].
  intros a (b & Hb & Hu & Hh). simpl.
  destruct (dedup_exact site articles) as (_ & _ & H3).
  destruct (H3 b Hb) as (raw & Hraw & ->). exists raw. by rewrite Hu, Hh.
Qed.

End Routing.

(** ** More concrete runs *)

Section MoreRuns.
#[local] Existing Instance latin1_db.

Lemma filter_headlines_rejects_non_strings_witness :
  existsb (fun h => negb (is_str h)) [headline story; PyNone] = true /\
  filter_headlines [headline story; PyNone] = Raise AttributeError.
Proof.
  split; [reflexivity|].
  apply (filter_headlines_rejects_non_strings [headline story; PyNone]).
  reflexivity.
Defined.

Lemma fix_guardian_link_drops_fragment_witness :
  starts_with (py "http") (py "/world/story") = false /\
  fix_guardian_link (py "/world/story" ++ 35 :: py "comments")
  = py "https://www.theguardian.com" ++ py "/world/story" /\
  fix_guardian_link (py "/world/story")
  = py "https://www.theguardian.com" ++ py "/world/story".
Proof.
  split; [vm_compute; reflexivity|].
  apply (fix_guardian_link_drops_fragment (py "/world/story") (py "comments")).
  - vm_compute; reflexivity.
  - vm_compute. repeat constructor; discriminate.
Defined.

Lemma dedup_keeps_distinct_links_witness :
  NoDup (map (fun a => resolve (py "bbc") (link a)) [story; teaser]) /\
  dedup (py "bbc") [story; teaser]
  = map (cleaned_entry (py "bbc")) [story; teaser].
Proof.
  assert (H : NoDup (map (fun a => resolve (py "bbc") (link a)) [story; teaser])).
  { repeat constructor; rewrite ?elem_of_cons, ?elem_of_nil; vm_compute;
    intuition discriminate. }
  split; [exact H|].
  apply (dedup_keeps_distinct_links (py "bbc") [story; teaser] H).
Defined.

Lemma fetch_retry_failure_witness :
  session_get_oracle blocked_env ([] ++ [EvGet (link story) HEADERS [] None])
  = Ok forbidden /\
  fetch_full_article blocked_env (link story) []
  = ((CONTENT_NOT_AVAILABLE, None),
     [] ++ [EvGet (link story) HEADERS [] None; EvSleep 2;
            EvGet (link story) HEADERS (set_cookies forbidden)
                  (Some (set_cookies forbidden))]).
Proof.
  split; [reflexivity|].
  apply (fetch_retry_failure blocked_env (link story) [] forbidden);
    reflexivity.
Defined.

Lemma fetch_empty_page_keeps_image_witness :
  session_get_oracle cover_only_env ([] ++ [EvGet (link story) HEADERS [] None])
  = Ok cover_only /\
  fetch_full_article cover_only_env (link story) []
  = ((CONTENT_NOT_AVAILABLE, Some (py "https://news.example/cover.png")),
     [] ++ [EvGet (link story) HEADERS [] None]).
Proof.
  split; [reflexivity|].
  apply (fetch_empty_page_keeps_image cover_only_env (link story) [] cover_only
           (Tree [py "  "] (Ok [py "https://news.example/cover.png"]))
           (py "https://news.example/cover.png") []);
    reflexivity.
Defined.

Lemma generate_summary_blank_witness :
  py_str (PyStr (py "   ")) = Ok (py "   ") /\ strip (py "   ") = [] /\
  generate_summary offline (PyStr (py "   ")) []
  = (Ok (PyStr (py "No content available to summarize.")), []).
Proof.
  split; [reflexivity|]. split; [reflexivity|].
  apply (generate_summary_blank offline (PyStr (py "   ")) (py "   ") []);
    reflexivity.
Defined.

Lemma generate_summary_long_witness :
  (10 <= length (split ten_words))%nat /\
  generate_summary offline (PyStr ten_words) []
  = (Ok (clean_summary (PyStr (take 300 (strip ten_words) ++ py "..."))),
     [] ++ [model_call (PyStr ten_words)]) /\
  (length (model_input (PyStr ten_words)) <= 2059)%nat.
Proof.
  split; [vm_compute; lia|].
  apply (generate_summary_long offline ten_words []). vm_compute; lia.
Defined.

Lemma clean_summary_failure_returns_input_witness :
  (clean_summary_try PyNone).1 = Raise TypeError /\ clean_summary PyNone = PyNone.
Proof.
  split; [reflexivity|].
  apply (clean_summary_failure_returns_input PyNone TypeError). reflexivity.
Defined.

Lemma clean_summary_empty_witness :
  nfkc (ftfy_fix_text []) = [] /\ clean_summary (PyStr []) = PyStr [].
Proof.
  split; [reflexivity|]. apply (clean_summary_empty []). reflexivity.
Defined.

Lemma clean_text_blank_witness :
  Forall (fun c => is_ascii c = true /\ is_space c = true) [32; 9; 10; 32] /\
  clean_text (PyStr [32; 9; 10; 32]) = PyStr [].
Proof.
  assert (H : Forall (fun c => is_ascii c = true /\ is_space c = true)
                     [32; 9; 10; 32]) by (repeat constructor).
  split; [exact H|]. apply (clean_text_blank [32; 9; 10; 32] H).
Defined.

Lemma clean_text_restores_apostrophe_witness :
  clean_text (PyStr (py "Trump" ++ [32; 115])) = PyStr (py "Trump" ++ [39; 115]).
Proof.
  apply (clean_text_restores_apostrophe (py "Trump") 32 115).
  - discriminate.
  - vm_compute. repeat constructor.
  - reflexivity.
  - reflexivity.
  - reflexivity.
Defined.

Lemma scrape_failure_ends_run_witness :
  scrape_oracle unreachable_env (static_site "https://a.example")
    ([] ++ [scrape_event (static_site "https://a.example")])
  = Raise ConnectionError /\
  process_news unreachable_env two_sites []
  = (Raise ConnectionError, [] ++ [scrape_event (static_site "https://a.example")]).
Proof.
  split; [reflexivity|].
  apply (scrape_failure_ends_run unreachable_env (py "bbc")
           (static_site "https://a.example")
           [(py "cnn", static_site "https://b.example")] [] ConnectionError).
  reflexivity.
Defined.



Lemma emitted_articles_come_from_batch_witness :
  scrape_oracle story_env (static_site "https://a.example")
    ([] ++ [scrape_event (static_site "https://a.example")]) = Ok [story] /\
  exists added,
    appended empty_results
      (process_site story_env (py "bbc", static_site "https://a.example")
         (empty_results, [])).2.1 added /\
    Forall (fun a => exists raw, raw ∈ [story] /\
              a_url a = resolve (py "bbc") (link raw) /\
              a_headline a = clean_text (clean_text (headline raw))) added.
Proof.
  split; [reflexivity|].
  apply (emitted_articles_come_from_batch story_env (py "bbc")
           (static_site "https://a.example") empty_results [] [story]).
  reflexivity.
Defined.

End MoreRuns.
